(** * The IRQ offload/bypass manager

    A shallow embedding of the producer/consumer registry of the IRQ bypass
    manager ([__connect], [__disconnect] and the four exported
    [irq_bypass_*] entry points), and the properties of its connect
    protocol, its duplicate detection and its module reference counting.

    The manager keeps two kernel lists of caller-owned objects, calls back
    into these objects through optional function pointers and pins its own
    module while an object is registered.  The embedding keeps the three
    ingredients apart:
    - the caller-owned objects live in a [memory], addressed by pointers;
      the lists hold pointers, so that [tmp->token] is read through the
      pointer and [tmp == consumer] is pointer equality;
    - the manager's own data (both lists, the module reference count) is a
      [state], threaded through a state monad whose failure is the oops of a
      call through a NULL function pointer;
    - every call-back is recorded in a [trace], together with the value it
      returned.

    The global mutex serialises the four entry points; one call is one
    atomic step here, and [mutex_lock], [mutex_unlock] and [might_sleep]
    leave no mark on the state. *)

From Stdlib Require Import ZArith List Bool Lia.
Import ListNotations.
Local Open Scope Z_scope.

(** ** Pointers, error numbers, call-backs *)

Definition ptr := Z.
Definition NULL : ptr := 0.

(** Modelled from the spec: the error kinds InvalidArgument, Unavailable and
    Busy.  The header that gives [EINVAL], [ENODEV] and [EBUSY] their numbers
    is not among the sources; these are the numbers of errno-base.h. *)
Definition EINVAL : Z := 22.
Definition ENODEV : Z := 19.
Definition EBUSY : Z := 16.

(** What the collaborators see of the manager: the call-backs it makes, in
    the order it makes them.  An [int] call-back is recorded with its return
    value.  [call_connect] and [call_disconnect] are ghost marks, written on
    entry to [__connect] and [__disconnect]; they let a statement count the
    invocations of the two static functions. *)
Inductive event : Type :=
| call_connect (prod cons : ptr)
| call_disconnect (prod cons : ptr)
| prod_stop (prod : ptr)
| cons_stop (cons : ptr)
| prod_add_consumer (prod cons : ptr) (ret : Z)
| cons_add_producer (cons prod : ptr) (ret : Z)
| prod_del_consumer (prod cons : ptr)
| cons_del_producer (cons prod : ptr)
| cons_start (cons : ptr)
| prod_start (prod : ptr).

Definition trace := list event.

(** A function pointer returning [int]: the code behind it belongs to the
    collaborator, and its result may depend on everything that happened to
    the collaborator before, which is the trace up to the call. *)
Definition int_fn := trace -> Z.

(** Modelled from the spec: [struct irq_bypass_producer] (linux/irqbypass.h
    is not among the sources).  The fields are the ones the manager reads: the
    token, and four optional call-backs.  A [void] call-back is [true] when
    the slot holds a function, an [int] call-back is [Some f]; [false] and
    [None] are the NULL slot. *)
Module Prod.
Record irq_bypass_producer : Type := {
  token : ptr;
  stop : bool;
  start : bool;
  add_consumer : option int_fn;
  del_consumer : bool
}.
End Prod.

(** Modelled from the spec: [struct irq_bypass_consumer] (linux/irqbypass.h
    is not among the sources).  [add_producer] and [del_producer] are
    mandatory for a registered consumer, yet they are slots of the struct like
    the others, and [irq_bypass_register_consumer] tests them against NULL. *)
Module Cons.
Record irq_bypass_consumer : Type := {
  token : ptr;
  stop : bool;
  start : bool;
  add_producer : option int_fn;
  del_producer : bool
}.
End Cons.

(** The caller-owned objects, by address. *)
Record memory : Type := {
  producer_at : ptr -> Prod.irq_bypass_producer;
  consumer_at : ptr -> Cons.irq_bypass_consumer
}.

(** ** The manager's state *)

(** [producers] and [consumers] are the two [LIST_HEAD]s, as the pointers of
    the linked objects from the head on.  [module_refcnt] counts the
    references the manager took on [THIS_MODULE]; [module_live] tells whether
    [try_module_get] can still succeed. *)
Record state : Type := {
  producers : list ptr;
  consumers : list ptr;
  module_refcnt : Z;
  module_live : bool;
  log : trace
}.

Definition M (A : Type) : Type := state -> option (A * state).

Definition ret {A : Type} (a : A) : M A := fun s => Some (a, s).

Definition bind {A B : Type} (m : M A) (k : A -> M B) : M B :=
  fun s => match m s with
           | Some (a, s') => k a s'
           | None => None
           end.

(** A call through a NULL function pointer. *)
Definition oops {A : Type} : M A := fun _ => None.

Declare Scope kernel_scope.
Delimit Scope kernel_scope with kernel.
Notation "x <- m ;; k" := (bind m (fun x => k))
  (at level 61, m at next level, right associativity) : kernel_scope.
Notation "m ;; k" := (bind m (fun _ => k))
  (at level 61, right associativity) : kernel_scope.
Local Open Scope kernel_scope.

Definition when (b : bool) (m : M unit) : M unit :=
  if b then m else ret tt.

Definition emit (e : event) : M unit :=
  fun s => Some (tt, {| producers := producers s;
                        consumers := consumers s;
                        module_refcnt := module_refcnt s;
                        module_live := module_live s;
                        log := log s ++ [e] |}).

(** Calling an [int] call-back: the collaborator answers from what it has
    seen so far, and the call is logged with the answer. *)
Definition call (f : int_fn) (mk : Z -> event) : M Z :=
  fun s => let r := f (log s) in
           bind (emit (mk r)) (fun _ => ret r) s.

(** Modelled from the spec: [try_module_get(THIS_MODULE)] (linux/module.h is
    not among the sources).  It takes a reference unless the module is on its
    way out. *)
Definition try_module_get : M bool :=
  fun s => if module_live s
           then Some (true, {| producers := producers s;
                               consumers := consumers s;
                               module_refcnt := module_refcnt s + 1;
                               module_live := module_live s;
                               log := log s |})
           else Some (false, s).

(** Modelled from the spec: [module_put(THIS_MODULE)] gives one reference
    back. *)
Definition module_put : M unit :=
  fun s => Some (tt, {| producers := producers s;
                        consumers := consumers s;
                        module_refcnt := module_refcnt s - 1;
                        module_live := module_live s;
                        log := log s |}).

Definition get_producers : M (list ptr) := fun s => Some (producers s, s).
Definition get_consumers : M (list ptr) := fun s => Some (consumers s, s).

(** An update of one of the two lists in place. *)
Definition on_producers (f : list ptr -> list ptr) : M unit :=
  fun s => Some (tt, {| producers := f (producers s);
                        consumers := consumers s;
                        module_refcnt := module_refcnt s;
                        module_live := module_live s;
                        log := log s |}).

Definition on_consumers (f : list ptr -> list ptr) : M unit :=
  fun s => Some (tt, {| producers := producers s;
                        consumers := f (consumers s);
                        module_refcnt := module_refcnt s;
                        module_live := module_live s;
                        log := log s |}).

Definition is_set {A : Type} (slot : option A) : bool :=
  match slot with Some _ => true | None => false end.

(** Modelled from the spec: [list_add] and [list_del] of linux/list.h, on the
    list as the sequence of its linked objects.  [list_add] links the new
    node right after the head.  [list_del] rewires the two neighbours the
    node itself points to, so a node that is on the list disappears from it.
    A node that is not linked has no neighbours on the list, and the list
    keeps all its members: this is the outcome of every run in which
    [list_del] returns (a self-linked node, or a stale node under list
    debugging); the run in which it faults on the stale pointers has no state
    afterwards and is not modelled. *)
Definition list_add (node : ptr) (head : list ptr) : list ptr := node :: head.

Definition list_del (node : ptr) (head : list ptr) : list ptr :=
  filter (fun tmp => negb (tmp =? node)) head.

Section Manager.

Variable mem : memory.

Local Abbreviation P prod := (producer_at mem prod).
Local Abbreviation C cons := (consumer_at mem cons).

(** ** Connect and disconnect *)

(** [cons->add_producer] and [cons->del_producer] are called without a
    test: a NULL slot is an oops. *)
Definition call_add_producer (cons prod : ptr) : M Z :=
  match Cons.add_producer (C cons) with
  | Some f => call f (cons_add_producer cons prod)
  | None => oops
  end.

Definition call_del_producer (cons prod : ptr) : M unit :=
  if Cons.del_producer (C cons) then emit (cons_del_producer cons prod)
  else oops.

Definition __connect (prod cons : ptr) : M Z :=
  emit (call_connect prod cons) ;;
  when (Prod.stop (P prod)) (emit (prod_stop prod)) ;;
  when (Cons.stop (C cons)) (emit (cons_stop cons)) ;;
  let wire : M Z :=
    r <- call_add_producer cons prod ;;
    when (negb (r =? 0) && Prod.del_consumer (P prod))
         (emit (prod_del_consumer prod cons)) ;;
    when (Cons.start (C cons)) (emit (cons_start cons)) ;;
    when (Prod.start (P prod)) (emit (prod_start prod)) ;;
    ret r in
  match Prod.add_consumer (P prod) with
  | Some f =>
      r <- call f (prod_add_consumer prod cons) ;;
      if negb (r =? 0) then ret r else wire
  | None => wire
  end.

Definition __disconnect (prod cons : ptr) : M unit :=
  emit (call_disconnect prod cons) ;;
  when (Prod.stop (P prod)) (emit (prod_stop prod)) ;;
  when (Cons.stop (C cons)) (emit (cons_stop cons)) ;;
  call_del_producer cons prod ;;
  when (Prod.del_consumer (P prod)) (emit (prod_del_consumer prod cons)) ;;
  when (Cons.start (C cons)) (emit (cons_start cons)) ;;
  when (Prod.start (P prod)) (emit (prod_start prod)).

(** ** The four entry points *)

(** The [out_err] label of the two register functions. *)
Definition out_err (r : Z) : M Z :=
  module_put ;; ret r.

Definition irq_bypass_register_producer (producer : ptr) : M Z :=
  if Prod.token (P producer) =? NULL then ret (- EINVAL) else
  got <- try_module_get ;;
  if negb got then ret (- ENODEV) else
  head <- get_producers ;;
  if existsb (fun tmp => Prod.token (P tmp) =? Prod.token (P producer)) head
  then out_err (- EBUSY) else
  head' <- get_consumers ;;
  let add : M Z :=
    on_producers (list_add producer) ;;
    ret 0 in
  match find (fun consumer =>
                Cons.token (C consumer) =? Prod.token (P producer)) head' with
  | Some consumer =>
      r <- __connect producer consumer ;;
      if negb (r =? 0) then out_err r else add
  | None => add
  end.

Definition irq_bypass_unregister_producer (producer : ptr) : M unit :=
  if Prod.token (P producer) =? NULL then ret tt else
  got <- try_module_get ;;
  if negb got then ret tt else
  head <- get_producers ;;
  match find (fun tmp => Prod.token (P tmp) =? Prod.token (P producer)) head with
  | Some _ =>
      head' <- get_consumers ;;
      match find (fun consumer =>
                    Cons.token (C consumer) =? Prod.token (P producer)) head' with
      | Some consumer => __disconnect producer consumer
      | None => ret tt
      end ;;
      on_producers (list_del producer) ;;
      module_put
  | None => ret tt
  end ;;
  module_put.

Definition irq_bypass_register_consumer (consumer : ptr) : M Z :=
  if (Cons.token (C consumer) =? NULL)
     || negb (is_set (Cons.add_producer (C consumer)))
     || negb (Cons.del_producer (C consumer))
  then ret (- EINVAL) else
  got <- try_module_get ;;
  if negb got then ret (- ENODEV) else
  head <- get_consumers ;;
  if existsb (fun tmp => (Cons.token (C tmp) =? Cons.token (C consumer))
                         || (tmp =? consumer)) head
  then out_err (- EBUSY) else
  head' <- get_producers ;;
  let add : M Z :=
    on_consumers (list_add consumer) ;;
    ret 0 in
  match find (fun producer =>
                Prod.token (P producer) =? Cons.token (C consumer)) head' with
  | Some producer =>
      r <- __connect producer consumer ;;
      if negb (r =? 0) then out_err r else add
  | None => add
  end.

Definition irq_bypass_unregister_consumer (consumer : ptr) : M unit :=
  if Cons.token (C consumer) =? NULL then ret tt else
  got <- try_module_get ;;
  if negb got then ret tt else
  head <- get_consumers ;;
  match find (fun tmp => tmp =? consumer) head with
  | Some _ =>
      head' <- get_producers ;;
      match find (fun producer =>
                    Prod.token (P producer) =? Cons.token (C consumer)) head' with
      | Some producer => __disconnect producer consumer
      | None => ret tt
      end ;;
      on_consumers (list_del consumer) ;;
      module_put
  | None => ret tt
  end ;;
  module_put.

End Manager.

(** ** Runs of the manager *)

(** The registry before the first call: nothing linked, no reference
    taken, nothing logged. *)
Definition init (live : bool) : state :=
  {| producers := []; consumers := []; module_refcnt := 0;
     module_live := live; log := [] |}.

Inductive api_call : Type :=
| register_producer (producer : ptr)
| unregister_producer (producer : ptr)
| register_consumer (consumer : ptr)
| unregister_consumer (consumer : ptr).

Definition api (mem : memory) (a : api_call) : M unit :=
  match a with
  | register_producer p => irq_bypass_register_producer mem p ;; ret tt
  | unregister_producer p => irq_bypass_unregister_producer mem p
  | register_consumer c => irq_bypass_register_consumer mem c ;; ret tt
  | unregister_consumer c => irq_bypass_unregister_consumer mem c
  end.

Fixpoint run (mem : memory) (calls : list api_call) : M unit :=
  match calls with
  | [] => ret tt
  | a :: rest => api mem a ;; run mem rest
  end.

(** The states the registry can be in: those a sequence of calls of the
    four entry points leads to, from the empty registry.  The objects are not
    written between the calls. *)
Definition reachable (mem : memory) (s : state) : Prop :=
  exists live calls, run mem calls (init live) = Some (tt, s).

(** A sequence of calls between which the callers write to their objects
    as they please: every call comes with the memory it finds. *)
Fixpoint run_written (steps : list (memory * api_call)) : M unit :=
  match steps with
  | [] => ret tt
  | (mem, a) :: rest => api mem a ;; run_written rest
  end.

(** ** Reading a trace *)

(** What a computation adds to the log. *)
Definition new_events (s s' : state) : trace :=
  skipn (length (log s)) (log s').

Definition events_of {A : Type} (m : M A) (s : state) : trace :=
  match m s with
  | Some (_, s') => new_events s s'
  | None => []
  end.

(** The pairs [__connect] was entered with, in order. *)
Fixpoint connects (t : trace) : list (ptr * ptr) :=
  match t with
  | [] => []
  | call_connect p c :: t' => (p, c) :: connects t'
  | _ :: t' => connects t'
  end.

(** The result of a call of [add_consumer] or [add_producer]. *)
Definition add_result (e : event) : option Z :=
  match e with
  | prod_add_consumer _ _ r | cons_add_producer _ _ r => Some r
  | _ => None
  end.

(** The first non-zero result among the add steps of a trace, 0 when there
    is none. *)
Fixpoint first_error (t : trace) : Z :=
  match t with
  | [] => 0
  | e :: t' =>
      match add_result e with
      | Some r => if r =? 0 then first_error t' else r
      | None => first_error t'
      end
  end.

Definition is_start (e : event) : bool :=
  match e with
  | cons_start _ | prod_start _ => true
  | _ => false
  end.

(** The state [s] after a call that left the lists [ps] and [cs], moved the
    reference count by [dn] and logged [evs]. *)
Definition after (s : state) (ps cs : list ptr) (dn : Z) (evs : trace) : state :=
  {| producers := ps; consumers := cs;
     module_refcnt := module_refcnt s + dn; module_live := module_live s;
     log := log s ++ evs |}.

(** The state [s] with another log. *)
Definition with_log (s : state) (l : trace) : state :=
  {| producers := producers s; consumers := consumers s;
     module_refcnt := module_refcnt s; module_live := module_live s;
     log := l |}.

Section Shapes.

Variable mem : memory.

Local Abbreviation P prod := (producer_at mem prod).
Local Abbreviation C cons := (consumer_at mem cons).

(** The pieces of the log of [__connect] and [__disconnect]. *)
Definition stops (prod cons : ptr) : trace :=
  (if Prod.stop (P prod) then [prod_stop prod] else [])
  ++ (if Cons.stop (C cons) then [cons_stop cons] else []).

Definition starts (prod cons : ptr) : trace :=
  (if Cons.start (C cons) then [cons_start cons] else [])
  ++ (if Prod.start (P prod) then [prod_start prod] else []).

(** The call of [del_consumer] that follows a failed [add_producer]. *)
Definition rollback (prod cons : ptr) (r : Z) : trace :=
  if negb (r =? 0) && Prod.del_consumer (P prod)
  then [prod_del_consumer prod cons] else [].

(** The log [__connect] writes and the value it returns, from the log [l] it
    starts at; [None] is the oops at a NULL [add_producer]. *)
Definition wire_log (prod cons : ptr) (h : trace) : option (Z * trace) :=
  match Cons.add_producer (C cons) with
  | Some g =>
      Some (g h, cons_add_producer cons prod (g h)
                 :: rollback prod cons (g h) ++ starts prod cons)
  | None => None
  end.

Definition connect_log (prod cons : ptr) (l : trace) : option (Z * trace) :=
  let pre := call_connect prod cons :: stops prod cons in
  match Prod.add_consumer (P prod) with
  | Some f =>
      let r := f (l ++ pre) in
      if negb (r =? 0) then Some (r, pre ++ [prod_add_consumer prod cons r])
      else match wire_log prod cons
                   (l ++ pre ++ [prod_add_consumer prod cons r]) with
           | Some (r', evs) =>
               Some (r', pre ++ prod_add_consumer prod cons r :: evs)
           | None => None
           end
  | None =>
      match wire_log prod cons (l ++ pre) with
      | Some (r', evs) => Some (r', pre ++ evs)
      | None => None
      end
  end.

(** The log [__disconnect] writes. *)
Definition disconnected (prod cons : ptr) : trace :=
  call_disconnect prod cons :: stops prod cons
  ++ cons_del_producer cons prod
  :: (if Prod.del_consumer (P prod) then [prod_del_consumer prod cons] else [])
  ++ starts prod cons.

Definition prod_token (p : ptr) : ptr := Prod.token (P p).
Definition cons_token (c : ptr) : ptr := Cons.token (C c).

(** A consumer that passes the test at the head of
    [irq_bypass_register_consumer]. *)
Definition cons_valid (c : ptr) : Prop :=
  Cons.token (C c) <> NULL /\
  is_set (Cons.add_producer (C c)) = true /\
  Cons.del_producer (C c) = true.

(** The uniqueness the duplicate checks are there for. *)
Definition one_per_token (s : state) : Prop :=
  NoDup (map prod_token (producers s)) /\
  NoDup (map cons_token (consumers s)) /\
  NoDup (consumers s).

(** What holds of the registry between two calls. *)
Record registry_ok (s : state) : Prop := {
  ok_prod_tokens : NoDup (map prod_token (producers s));
  ok_cons_tokens : NoDup (map cons_token (consumers s));
  ok_prod_set : Forall (fun p => prod_token p <> NULL) (producers s);
  ok_cons_valid : Forall cons_valid (consumers s);
  ok_live : producers s <> [] \/ consumers s <> [] -> module_live s = true
}.

(** The references held for registered objects, against their number. *)
Definition refs_balanced (s : state) : Prop :=
  module_refcnt s = Z.of_nat (length (producers s) + length (consumers s)).

End Shapes.

(** ** Objects for the examples *)

Fixpoint lookup {A : Type} (d : A) (l : list (ptr * A)) (a : ptr) : A :=
  match l with
  | [] => d
  | (k, v) :: l' => if k =? a then v else lookup d l' a
  end.

(** An object nobody set up: NULL token, NULL slots. *)
Definition blank_producer : Prod.irq_bypass_producer :=
  {| Prod.token := NULL; Prod.stop := false; Prod.start := false;
     Prod.add_consumer := None; Prod.del_consumer := false |}.

Definition blank_consumer : Cons.irq_bypass_consumer :=
  {| Cons.token := NULL; Cons.stop := false; Cons.start := false;
     Cons.add_producer := None; Cons.del_producer := false |}.

(** A producer with every call-back, whose [add_consumer] returns [r]. *)
Definition full_producer (tok : ptr) (r : Z) : Prod.irq_bypass_producer :=
  {| Prod.token := tok; Prod.stop := true; Prod.start := true;
     Prod.add_consumer := Some (fun _ => r); Prod.del_consumer := true |}.

(** A consumer with every call-back, whose [add_producer] returns [r]. *)
Definition full_consumer (tok : ptr) (r : Z) : Cons.irq_bypass_consumer :=
  {| Cons.token := tok; Cons.stop := true; Cons.start := true;
     Cons.add_producer := Some (fun _ => r); Cons.del_producer := true |}.

(** The objects of the examples.  Producers 1 and 2 are two objects with the
    token 5; producer 3 refuses every consumer.  Consumers 11 and 15 are two
    objects with the token 5; consumer 12 refuses every producer; consumer 14
    has no [del_producer]. *)
Definition board : memory :=
  {| producer_at :=
       lookup blank_producer
         [(1, full_producer 5 0); (2, full_producer 5 0);
          (3, full_producer 9 (-22))];
     consumer_at :=
       lookup blank_consumer
         [(11, full_consumer 5 0); (12, full_consumer 5 (-12));
          (13, full_consumer 9 0);
          (14, {| Cons.token := 6; Cons.stop := false; Cons.start := false;
                  Cons.add_producer := Some (fun _ => 0);
                  Cons.del_producer := false |});
          (15, full_consumer 5 0)] |}.


(** The registry after producer 1 and then consumer 11 registered. *)
Definition paired : state :=
  Eval vm_compute in
    match run board [register_producer 1; register_consumer 11] (init true) with
    | Some (_, s) => s
    | None => init true
    end.

(** The objects of [board] after the owner of consumer 11 gave it the
    token 8. *)
Definition board_retagged : memory :=
  {| producer_at := producer_at board;
     consumer_at := fun a => if a =? 11 then full_consumer 8 0
                             else consumer_at board a |}.

(** ** Reading a trace, continued *)

(** The pairs [__disconnect] was entered with, in order. *)
Fixpoint disconnects (t : trace) : list (ptr * ptr) :=
  match t with
  | [] => []
  | call_disconnect p c :: t' => (p, c) :: disconnects t'
  | _ :: t' => disconnects t'
  end.

Definition is_stop (e : event) : bool :=
  match e with
  | prod_stop _ | cons_stop _ => true
  | _ => false
  end.

(** The call-backs that change the wiring of a pair. *)
Definition is_wiring (e : event) : bool :=
  match e with
  | prod_add_consumer _ _ _ | cons_add_producer _ _ _
  | prod_del_consumer _ _ | cons_del_producer _ _ => true
  | _ => false
  end.

(** The two entry points that register. *)
Definition is_register (a : api_call) : bool :=
  match a with
  | register_producer _ | register_consumer _ => true
  | _ => false
  end.

(** The pair a call works on: its argument, with an object of the other
    list that has the token of the argument. *)
Definition works_on (mem : memory) (a : api_call) (s : state) (p c : ptr)
  : Prop :=
  prod_token mem p = cons_token mem c /\
  match a with
  | register_producer q | unregister_producer q =>
      p = q /\ In c (consumers s)
  | register_consumer q | unregister_consumer q =>
      c = q /\ In p (producers s)
  end.

Definition pair_eqb (x y : ptr * ptr) : bool :=
  (fst x =? fst y) && (snd x =? snd y).

(** The pairs that are wired at the end of a trace, read off the calls the
    consumers received: an [add_producer] that returned 0 wires the pair, a
    [del_producer] unwires it.  The reading starts from the wired pairs [w]
    and gives up, with [None], at an [add_producer] that returns 0 for a pair
    that is wired already and at a [del_producer] for a pair that is not
    wired. *)
Fixpoint wiring (t : trace) (w : list (ptr * ptr)) : option (list (ptr * ptr)) :=
  match t with
  | [] => Some w
  | cons_add_producer c p r :: t' =>
      if r =? 0
      then if existsb (pair_eqb (p, c)) w then None
           else wiring t' ((p, c) :: w)
      else wiring t' w
  | cons_del_producer c p :: t' =>
      if existsb (pair_eqb (p, c)) w
      then wiring t' (filter (fun x => negb (pair_eqb (p, c) x)) w)
      else None
  | _ :: t' => wiring t' w
  end.

(** The call-backs [wiring] passes over. *)
Definition neutral (e : event) : bool :=
  match e with
  | cons_add_producer _ _ _ | cons_del_producer _ _ => false
  | _ => true
  end.

(** The wired pairs [w] are the pairs of a producer and a consumer that are
    both on their lists and have the same token. *)
Definition wired_as_registered (mem : memory) (s : state)
    (w : list (ptr * ptr)) : Prop :=
  forall p c,
    In (p, c) w <->
    In p (producers s) /\ In c (consumers s) /\
    prod_token mem p = cons_token mem c.

(** A call that unregisters a producer is aimed when its argument is on the
    producer list, or has a token that no producer on the list has; the
    other calls always are. *)
Definition aimed (mem : memory) (a : api_call) (s : state) : Prop :=
  match a with
  | unregister_producer p =>
      In p (producers s) \/
      forall tmp, In tmp (producers s) -> prod_token mem tmp <> prod_token mem p
  | _ => True
  end.

(** A sequence of calls each of which is aimed in the state it finds. *)
Fixpoint run_aimed (mem : memory) (calls : list api_call) (s : state) : Prop :=
  match calls with
  | [] => True
  | a :: rest =>
      aimed mem a s /\
      forall s', api mem a s = Some (tt, s') -> run_aimed mem rest s'
  end.

(** ** The module going *)

(** Modelled from the spec: the tear-down of the manager's module (the
    module code is not among the sources).  The references pin the manager,
    which "cannot be torn down while connections exist": the module starts to
    go only when no reference is held, and from then on [try_module_get]
    fails; while a reference is held the attempt changes nothing. *)
Definition delete_module : M unit :=
  fun s => if module_refcnt s =? 0
           then Some (tt, {| producers := producers s;
                             consumers := consumers s;
                             module_refcnt := module_refcnt s;
                             module_live := false;
                             log := log s |})
           else Some (tt, s).

(** What happens to the manager: a call of an entry point, or an attempt to
    unload its module. *)
Inductive step : Type :=
| call_api (a : api_call)
| unload.

Definition life (mem : memory) (st : step) : M unit :=
  match st with
  | call_api a => api mem a
  | unload => delete_module
  end.

Fixpoint run_life (mem : memory) (steps : list step) : M unit :=
  match steps with
  | [] => ret tt
  | st :: rest => life mem st ;; run_life mem rest
  end.

(** A sequence of steps in which each call is aimed in the state it
    finds. *)
Fixpoint life_aimed (mem : memory) (steps : list step) (s : state) : Prop :=
  match steps with
  | [] => True
  | st :: rest =>
      match st with call_api a => aimed mem a s | unload => True end /\
      forall s', life mem st s = Some (tt, s') -> life_aimed mem rest s'
  end.

(** ** The monad, step by step *)

Lemma skipn_length_app {A : Type} (l x : list A) :
  skipn (length l) (l ++ x) = x.
Proof. induction l; simpl; auto. Qed.

Lemma with_log_self (s : state) : with_log s (log s) = s.
Proof. now destruct s. Qed.

Lemma with_log_after (s : state) (evs : trace) :
  with_log s (log s ++ evs) = after s (producers s) (consumers s) 0 evs.
Proof. unfold with_log, after. now rewrite Z.add_0_r. Qed.

Lemma new_events_after (s : state) (ps cs : list ptr) (dn : Z) (evs : trace) :
  new_events s (after s ps cs dn evs) = evs.
Proof. unfold new_events; simpl. apply skipn_length_app. Qed.

Lemma new_events_self (s : state) : new_events s s = [].
Proof. unfold new_events. apply skipn_all. Qed.

Lemma emit_at (A : Type) (e : event) (k : unit -> M A) (s : state) (l : trace) :
  bind (emit e) k (with_log s l) = k tt (with_log s (l ++ [e])).
Proof. reflexivity. Qed.

Lemma when_at (A : Type) (b : bool) (e : event) (k : unit -> M A)
    (s : state) (l : trace) :
  bind (when b (emit e)) k (with_log s l)
  = k tt (with_log s (l ++ if b then [e] else [])).
Proof. destruct b; simpl; [reflexivity|]. now rewrite app_nil_r. Qed.

Lemma when_last (b : bool) (e : event) (s : state) (l : trace) :
  when b (emit e) (with_log s l)
  = Some (tt, with_log s (l ++ if b then [e] else [])).
Proof. destruct b; simpl; [reflexivity|]. now rewrite app_nil_r. Qed.

Lemma call_at (A : Type) (f : int_fn) (mk : Z -> event) (k : Z -> M A)
    (s : state) (l : trace) :
  bind (call f mk) k (with_log s l) = k (f l) (with_log s (l ++ [mk (f l)])).
Proof. reflexivity. Qed.

Section Protocol.

Variable mem : memory.

Local Abbreviation P prod := (producer_at mem prod).
Local Abbreviation C cons := (consumer_at mem cons).

Lemma wire_at (prod cons : ptr) (s : state) (h : trace) :
  (r <- call_add_producer mem cons prod ;;
   when (negb (r =? 0) && Prod.del_consumer (P prod))
        (emit (prod_del_consumer prod cons)) ;;
   when (Cons.start (C cons)) (emit (cons_start cons)) ;;
   when (Prod.start (P prod)) (emit (prod_start prod)) ;;
   ret r) (with_log s h)
  = match wire_log mem prod cons h with
    | Some (r, evs) => Some (r, with_log s (h ++ evs))
    | None => None
    end.
Proof.
  unfold call_add_producer, wire_log.
  destruct (Cons.add_producer (C cons)) as [g|]; [|reflexivity].
  rewrite call_at, !when_at, <- !app_assoc. reflexivity.
Qed.

(** [__connect] only writes to the log, and what it writes and returns is
    [connect_log]. *)
Lemma connect_eq (prod cons : ptr) (s : state) :
  __connect mem prod cons s
  = match connect_log mem prod cons (log s) with
    | Some (r, evs) => Some (r, with_log s (log s ++ evs))
    | None => None
    end.
Proof.
  rewrite <- (with_log_self s) at 1.
  unfold __connect, connect_log.
  rewrite emit_at, !when_at, <- !app_assoc.
  change (log s ++ [call_connect prod cons]
            ++ (if Prod.stop (P prod) then [prod_stop prod] else [])
            ++ (if Cons.stop (C cons) then [cons_stop cons] else []))
    with (log s ++ call_connect prod cons :: stops mem prod cons).
  set (pre := call_connect prod cons :: stops mem prod cons).
  destruct (Prod.add_consumer (P prod)) as [f|].
  - rewrite call_at. cbv zeta.
    destruct (negb (f (log s ++ pre) =? 0)).
    + unfold ret. now rewrite <- app_assoc.
    + rewrite wire_at, <- app_assoc.
      destruct (wire_log mem prod cons _) as [[r evs]|]; [|reflexivity].
      now rewrite <- !app_assoc.
  - rewrite wire_at.
    destruct (wire_log mem prod cons _) as [[r evs]|]; [|reflexivity].
    now rewrite <- !app_assoc.
Qed.

Lemma disconnect_eq (prod cons : ptr) (s : state) :
  __disconnect mem prod cons s
  = if Cons.del_producer (C cons)
    then Some (tt, with_log s (log s ++ disconnected mem prod cons))
    else None.
Proof.
  rewrite <- (with_log_self s) at 1.
  unfold __disconnect, disconnected, call_del_producer.
  rewrite emit_at, !when_at.
  destruct (Cons.del_producer (C cons)); [|reflexivity].
  rewrite emit_at, !when_at, when_last.
  unfold stops, starts. rewrite <- !app_assoc. simpl.
  rewrite <- ?app_assoc. reflexivity.
Qed.

(** ** The entry points as equations *)

(** Each entry point, as the outcome it has in each of its branches. *)
Lemma register_producer_eq (p : ptr) (s : state) :
  irq_bypass_register_producer mem p s
  = if Prod.token (P p) =? NULL then Some (- EINVAL, s)
    else if negb (module_live s) then Some (- ENODEV, s)
    else if existsb (fun tmp => Prod.token (P tmp) =? Prod.token (P p))
                    (producers s)
    then Some (- EBUSY, s)
    else match find (fun c => Cons.token (C c) =? Prod.token (P p))
                    (consumers s) with
         | Some c =>
             match connect_log mem p c (log s) with
             | Some (r, evs) =>
                 if negb (r =? 0)
                 then Some (r, after s (producers s) (consumers s) 0 evs)
                 else Some (0, after s (p :: producers s) (consumers s) 1 evs)
             | None => None
             end
         | None => Some (0, after s (p :: producers s) (consumers s) 1 [])
         end.
Proof.
  unfold irq_bypass_register_producer.
  destruct (Prod.token (P p) =? NULL); [reflexivity|].
  unfold bind at 1, try_module_get.
  destruct (module_live s) eqn:L; [|reflexivity]. cbn [negb].
  unfold bind at 1, get_producers. cbn [producers].
  destruct (existsb _ (producers s)).
  { unfold out_err, module_put, bind, ret. cbn. f_equal. f_equal.
    destruct s; cbn in *. f_equal; [lia | auto]. }
  unfold bind at 1, get_consumers. cbn [consumers].
  destruct (find _ (consumers s)) as [c|].
  - unfold bind at 1. rewrite connect_eq. cbn [log].
    destruct (connect_log mem p c (log s)) as [[r evs]|]; [|reflexivity].
    destruct (negb (r =? 0)).
    + unfold out_err, module_put, bind, ret, after, with_log. cbn.
      do 3 f_equal; [lia | auto].
    + unfold on_producers, list_add, bind, ret, after, with_log. cbn.
      now rewrite L.
  - unfold on_producers, list_add, bind, ret, after. cbn.
    now rewrite L, app_nil_r.
Qed.

Lemma register_consumer_eq (c : ptr) (s : state) :
  irq_bypass_register_consumer mem c s
  = if (Cons.token (C c) =? NULL)
       || negb (is_set (Cons.add_producer (C c)))
       || negb (Cons.del_producer (C c))
    then Some (- EINVAL, s)
    else if negb (module_live s) then Some (- ENODEV, s)
    else if existsb (fun tmp => (Cons.token (C tmp) =? Cons.token (C c))
                                || (tmp =? c)) (consumers s)
    then Some (- EBUSY, s)
    else match find (fun p => Prod.token (P p) =? Cons.token (C c))
                    (producers s) with
         | Some p =>
             match connect_log mem p c (log s) with
             | Some (r, evs) =>
                 if negb (r =? 0)
                 then Some (r, after s (producers s) (consumers s) 0 evs)
                 else Some (0, after s (producers s) (c :: consumers s) 1 evs)
             | None => None
             end
         | None => Some (0, after s (producers s) (c :: consumers s) 1 [])
         end.
Proof.
  unfold irq_bypass_register_consumer.
  destruct (_ || _ || _); [reflexivity|].
  unfold bind at 1, try_module_get.
  destruct (module_live s) eqn:L; [|reflexivity]. cbn [negb].
  unfold bind at 1, get_consumers. cbn [consumers].
  destruct (existsb _ (consumers s)).
  { unfold out_err, module_put, bind, ret. cbn. f_equal. f_equal.
    destruct s; cbn in *. f_equal; [lia | auto]. }
  unfold bind at 1, get_producers. cbn [producers].
  destruct (find _ (producers s)) as [p|].
  - unfold bind at 1. rewrite connect_eq. cbn [log].
    destruct (connect_log mem p c (log s)) as [[r evs]|]; [|reflexivity].
    destruct (negb (r =? 0)).
    + unfold out_err, module_put, bind, ret, after, with_log. cbn.
      do 3 f_equal; [lia | auto].
    + unfold on_consumers, list_add, bind, ret, after, with_log. cbn.
      now rewrite L.
  - unfold on_consumers, list_add, bind, ret, after. cbn.
    now rewrite L, app_nil_r.
Qed.

Lemma unregister_producer_eq (p : ptr) (s : state) :
  irq_bypass_unregister_producer mem p s
  = if Prod.token (P p) =? NULL then Some (tt, s)
    else if negb (module_live s) then Some (tt, s)
    else match find (fun tmp => Prod.token (P tmp) =? Prod.token (P p))
                    (producers s) with
         | Some _ =>
             match find (fun c => Cons.token (C c) =? Prod.token (P p))
                        (consumers s) with
             | Some c =>
                 if Cons.del_producer (C c)
                 then Some (tt, after s (list_del p (producers s)) (consumers s)
                                  (-1) (disconnected mem p c))
                 else None
             | None =>
                 Some (tt, after s (list_del p (producers s)) (consumers s)
                             (-1) [])
             end
         | None => Some (tt, s)
         end.
Proof.
  unfold irq_bypass_unregister_producer.
  destruct (Prod.token (P p) =? NULL); [reflexivity|].
  unfold bind at 1, try_module_get.
  destruct (module_live s) eqn:L; [|reflexivity]. cbn [negb].
  unfold bind at 1, bind at 1, get_producers. cbn [producers].
  destruct (find _ (producers s)) as [tmp|].
  - unfold bind at 1, bind at 1, bind at 1, get_consumers. cbn [consumers].
    destruct (find _ (consumers s)) as [c|].
    + rewrite disconnect_eq.
      destruct (Cons.del_producer (C c)); [|reflexivity].
      unfold on_producers, module_put, bind, after, with_log. cbn.
      rewrite L. do 3 f_equal. lia.
    + unfold on_producers, module_put, bind, ret, after. cbn.
      rewrite L, app_nil_r. do 3 f_equal. lia.
  - unfold module_put, ret. cbn. do 2 f_equal.
    destruct s; cbn in *. f_equal; [lia | auto].
Qed.

Lemma unregister_consumer_eq (c : ptr) (s : state) :
  irq_bypass_unregister_consumer mem c s
  = if Cons.token (C c) =? NULL then Some (tt, s)
    else if negb (module_live s) then Some (tt, s)
    else match find (fun tmp => tmp =? c) (consumers s) with
         | Some _ =>
             match find (fun p => Prod.token (P p) =? Cons.token (C c))
                        (producers s) with
             | Some p =>
                 if Cons.del_producer (C c)
                 then Some (tt, after s (producers s) (list_del c (consumers s))
                                  (-1) (disconnected mem p c))
                 else None
             | None =>
                 Some (tt, after s (producers s) (list_del c (consumers s))
                             (-1) [])
             end
         | None => Some (tt, s)
         end.
Proof.
  unfold irq_bypass_unregister_consumer.
  destruct (Cons.token (C c) =? NULL); [reflexivity|].
  unfold bind at 1, try_module_get.
  destruct (module_live s) eqn:L; [|reflexivity]. cbn [negb].
  unfold bind at 1, bind at 1, get_consumers. cbn [consumers].
  destruct (find (fun tmp => tmp =? c) (consumers s)) as [tmp|].
  - unfold bind at 1, bind at 1, bind at 1, get_producers. cbn [producers].
    destruct (find _ (producers s)) as [p|].
    + rewrite disconnect_eq.
      destruct (Cons.del_producer (C c)); [|reflexivity].
      unfold on_consumers, module_put, bind, after, with_log. cbn.
      rewrite L. do 3 f_equal. lia.
    + unfold on_consumers, module_put, bind, ret, after. cbn.
      rewrite L, app_nil_r. do 3 f_equal. lia.
  - unfold module_put, ret. cbn. do 2 f_equal.
    destruct s; cbn in *. f_equal; [lia | auto].
Qed.

End Protocol.

(** ** Reading the log of a connect *)

Ltac split_in H :=
  repeat (rewrite in_app_iff in H || simpl in H);
  repeat match type of H with
         | _ \/ _ => destruct H as [H|H]
         | False => contradiction
         | _ = _ => try discriminate H
         end.

Section ConnectLog.

Variable mem : memory.

Local Abbreviation P prod := (producer_at mem prod).
Local Abbreviation C cons := (consumer_at mem cons).

Lemma first_error_app (a b : trace) :
  first_error (a ++ b)
  = if first_error a =? 0 then first_error b else first_error a.
Proof.
  induction a as [|e a IH]; simpl; [reflexivity|].
  destruct (add_result e) as [r|]; [|exact IH].
  destruct (Z.eqb_spec r 0) as [->|E]; [exact IH|].
  destruct (Z.eqb_spec r 0); [contradiction|reflexivity].
Qed.

Lemma first_error_stops (p c : ptr) : first_error (stops mem p c) = 0.
Proof.
  unfold stops. destruct (Prod.stop (P p)), (Cons.stop (C c)); reflexivity.
Qed.

Lemma first_error_rollback (p c : ptr) (r : Z) :
  first_error (rollback mem p c r) = 0.
Proof.
  unfold rollback.
  destruct (negb (r =? 0) && Prod.del_consumer (P p)); reflexivity.
Qed.

Lemma first_error_starts (p c : ptr) : first_error (starts mem p c) = 0.
Proof.
  unfold starts. destruct (Cons.start (C c)), (Prod.start (P p)); reflexivity.
Qed.

Lemma connects_stops (p c : ptr) : connects (stops mem p c) = [].
Proof.
  unfold stops. destruct (Prod.stop (P p)), (Cons.stop (C c)); reflexivity.
Qed.

Lemma connects_app (a b : trace) : connects (a ++ b) = connects a ++ connects b.
Proof.
  induction a as [|e a IH]; simpl; [reflexivity|].
  destruct e; simpl; now rewrite ?IH.
Qed.

Lemma connects_tail (p c : ptr) (r : Z) :
  connects (rollback mem p c r ++ starts mem p c) = [].
Proof.
  unfold rollback, starts.
  destruct (negb (r =? 0) && Prod.del_consumer (P p)),
    (Cons.start (C c)), (Prod.start (P p)); reflexivity.
Qed.

(** The two shapes of the log of [__connect]: the early return after a
    failed [add_consumer], and the full sequence, in which the add step of
    the producer, if there is one, returned 0. *)
Lemma connect_log_shape (p c : ptr) (l : trace) (r : Z) (evs : trace) :
  connect_log mem p c l = Some (r, evs) ->
  let pre := call_connect p c :: stops mem p c in
  (r <> 0 /\ evs = pre ++ [prod_add_consumer p c r] /\
   is_set (Prod.add_consumer (P p)) = true)
  \/
  (exists mid,
      evs = pre ++ mid ++ cons_add_producer c p r
                       :: rollback mem p c r ++ starts mem p c /\
      (mid = [] \/ mid = [prod_add_consumer p c 0]) /\
      (mid = [] <-> Prod.add_consumer (P p) = None)).
Proof.
  unfold connect_log, wire_log. cbv zeta.
  destruct (Prod.add_consumer (P p)) as [f|].
  - destruct (Z.eqb_spec (f (l ++ call_connect p c :: stops mem p c)) 0)
      as [E|E]; cbn [negb].
    + destruct (Cons.add_producer (C c)) as [g|]; [|discriminate].
      intros H; injection H as <- <-. right.
      exists [prod_add_consumer p c 0]. rewrite E. repeat split; auto.
      all: discriminate.
    + intros H; injection H as <- <-. left. auto.
  - destruct (Cons.add_producer (C c)) as [g|]; [|discriminate].
    intros H; injection H as <- <-. right. exists []. repeat split; auto.
Qed.

Lemma connect_log_total (p c : ptr) (l : trace) :
  is_set (Cons.add_producer (C c)) = true ->
  exists r evs, connect_log mem p c l = Some (r, evs).
Proof.
  unfold connect_log, wire_log. cbv zeta.
  destruct (Cons.add_producer (C c)) as [g|]; [intros _|discriminate].
  destruct (Prod.add_consumer (P p)) as [f|]; [|eauto].
  destruct (negb _); eauto.
Qed.

(** A recorded call of [add_producer] is the call of this connect, and its
    result is the result of the connect. *)
Lemma connect_log_add_producer (p c : ptr) (l : trace) (r : Z) (evs : trace)
    (c' p' : ptr) (x : Z) :
  connect_log mem p c l = Some (r, evs) ->
  In (cons_add_producer c' p' x) evs ->
  c' = c /\ p' = p /\ x = r.
Proof.
  intros H Hin. apply connect_log_shape in H. cbv zeta in H.
  destruct H as [(_ & -> & _)|(mid & -> & Hmid & _)].
  - unfold stops in Hin.
    destruct (Prod.stop (P p)), (Cons.stop (C c)); split_in Hin.
  - unfold stops, rollback, starts in Hin.
    destruct Hmid as [-> | ->];
    destruct (Prod.stop (P p)), (Cons.stop (C c)),
      (negb (r =? 0) && Prod.del_consumer (P p)),
      (Cons.start (C c)), (Prod.start (P p)); split_in Hin;
    injection Hin as <- <- <-; auto.
Qed.

Lemma connect_log_connects (p c : ptr) (l : trace) (r : Z) (evs : trace) :
  connect_log mem p c l = Some (r, evs) -> connects evs = [(p, c)].
Proof.
  intros H. apply connect_log_shape in H. cbv zeta in H.
  destruct H as [(_ & -> & _)|(mid & -> & Hmid & _)].
  - simpl. now rewrite connects_app, connects_stops.
  - simpl. rewrite !connects_app, connects_stops. simpl.
    rewrite connects_tail.
    destruct Hmid as [-> | ->]; reflexivity.
Qed.

End ConnectLog.

Lemma first_error_zero_iff (t : trace) :
  first_error t = 0 <->
  (forall e x, In e t -> add_result e = Some x -> x = 0).
Proof.
  induction t as [|e t IH]; simpl.
  - split; [intros _ e x []|reflexivity].
  - destruct (add_result e) as [r|] eqn:R.
    + destruct (Z.eqb_spec r 0) as [->|E].
      * rewrite IH. split.
        -- intros H e' x [<-|Hin] Hx; [congruence|eauto].
        -- intros H e' x Hin. apply H. now right.
      * split; [contradiction|].
        intros H. apply (H e r); auto.
    + rewrite IH. split.
      * intros H e' x [<-|Hin] Hx; [congruence|eauto].
      * intros H e' x Hin. apply H. now right.
Qed.

(** The value of a connect is the first non-zero result among its add
    steps. *)
Lemma connect_log_first_error (mem : memory) (p c : ptr) (l : trace)
    (r : Z) (evs : trace) :
  connect_log mem p c l = Some (r, evs) -> r = first_error evs.
Proof.
  intros E. apply connect_log_shape in E. cbv zeta in E.
  destruct E as [(Hr & -> & _)|(mid & -> & Hmid & _)].
  - change (call_connect p c :: stops mem p c)
      with ([call_connect p c] ++ stops mem p c).
    rewrite <- app_assoc, !first_error_app, first_error_stops. simpl.
    destruct (Z.eqb_spec r 0); [contradiction|reflexivity].
  - change (call_connect p c :: stops mem p c)
      with ([call_connect p c] ++ stops mem p c).
    change (cons_add_producer c p r :: rollback mem p c r ++ starts mem p c)
      with ([cons_add_producer c p r]
              ++ rollback mem p c r ++ starts mem p c).
    rewrite <- app_assoc, !first_error_app, first_error_stops,
      first_error_rollback, first_error_starts.
    destruct Hmid as [-> | ->]; simpl;
      destruct (Z.eqb_spec r 0) as [->|]; simpl;
      rewrite ?Z.eqb_refl; try reflexivity;
      destruct (Z.eqb_spec r 0); try contradiction; reflexivity.
Qed.

(** ** The connect protocol *)

(** After a failed [add_consumer], [__connect] has called neither [start]. *)
Lemma connect_refused_no_restart (mem : memory) (p c : ptr) (s : state)
    (r : Z) (s' : state) :
  __connect mem p c s = Some (r, s') ->
  In (prod_add_consumer p c r) (new_events s s') -> r <> 0 ->
  existsb is_start (new_events s s') = false.
Proof.
  rewrite connect_eq.
  destruct (connect_log mem p c (log s)) as [[r0 evs]|] eqn:E; [|discriminate].
  intros H; injection H as -> <-.
  rewrite with_log_after, new_events_after.
  apply connect_log_shape in E. cbv zeta in E.
  destruct E as [(_ & -> & _)|(mid & -> & Hmid & _)]; intros Hin Hr.
  - unfold stops.
    destruct (Prod.stop (producer_at mem p)), (Cons.stop (consumer_at mem c));
      reflexivity.
  - exfalso. unfold stops, rollback, starts in Hin.
    destruct Hmid as [-> | ->];
    destruct (Prod.stop (producer_at mem p)), (Cons.stop (consumer_at mem c)),
      (negb (r =? 0) && Prod.del_consumer (producer_at mem p)),
      (Cons.start (consumer_at mem c)), (Prod.start (producer_at mem p));
      split_in Hin; injection Hin as <-; contradiction.
Qed.

(** Once [add_producer] has been called, with whatever result, [__connect]
    ends with the [start] of the consumer and then of the producer. *)
Lemma connect_wired_restarts (mem : memory) (p c : ptr) (s : state)
    (r x : Z) (s' : state) :
  __connect mem p c s = Some (r, s') ->
  In (cons_add_producer c p x) (new_events s s') ->
  exists before, new_events s s' = before ++ starts mem p c.
Proof.
  rewrite connect_eq.
  destruct (connect_log mem p c (log s)) as [[r0 evs]|] eqn:E; [|discriminate].
  intros H; injection H as -> <-.
  rewrite with_log_after, new_events_after.
  apply connect_log_shape in E. cbv zeta in E.
  destruct E as [(_ & -> & _)|(mid & -> & _)]; intros Hin.
  - exfalso. unfold stops in Hin.
    destruct (Prod.stop (producer_at mem p)), (Cons.stop (consumer_at mem c));
      split_in Hin.
  - exists ((call_connect p c :: stops mem p c) ++ mid
            ++ cons_add_producer c p r :: rollback mem p c r).
    simpl. rewrite <- !app_assoc. simpl. rewrite <- ?app_assoc. reflexivity.
Qed.

(** C1, at the input where it fails: producer 3 has [stop], [start] and an
    [add_consumer] that returns -22, consumer 13 has [stop] and [start].
    [__connect] stops both, calls [add_consumer] and returns -22 on the
    spot: neither [start] is called, although both are there. *)
Theorem connect_refused_skips_restart :
  Prod.start (producer_at board 3) = true /\
  Cons.start (consumer_at board 13) = true /\
  exists s',
    __connect board 3 13 (init true) = Some (-22, s') /\
    log s' = [call_connect 3 13; prod_stop 3; cons_stop 13;
              prod_add_consumer 3 13 (-22)] /\
    existsb is_start (log s') = false.
Proof.
  split; [reflexivity|]. split; [reflexivity|].
  eexists. split; [vm_compute; reflexivity|]. split; reflexivity.
Qed.

(** C4: a connect with a consumer that has its [add_producer] returns.  If
    [add_producer] failed and the producer has a [del_consumer], the very
    next call is that [del_consumer], on the same pair; this is so after a
    successful [add_consumer] and also when the producer has no
    [add_consumer].  The value returned is the first non-zero result among
    the add steps that were called, hence 0 exactly when each of them
    returned 0. *)
Theorem connect_rollback_and_result (mem : memory) (p c : ptr) (s : state) :
  is_set (Cons.add_producer (consumer_at mem c)) = true ->
  exists r s',
    __connect mem p c s = Some (r, s') /\
    (forall x, In (cons_add_producer c p x) (new_events s s') -> x <> 0 ->
               Prod.del_consumer (producer_at mem p) = true ->
               exists before after_,
                 new_events s s'
                 = before ++ cons_add_producer c p x
                             :: prod_del_consumer p c :: after_) /\
    r = first_error (new_events s s') /\
    (r = 0 <-> forall e x, In e (new_events s s') ->
                           add_result e = Some x -> x = 0).
Proof.
  intros Hc.
  destruct (connect_log_total mem p c (log s) Hc) as (r & evs & E).
  exists r, (with_log s (log s ++ evs)).
  rewrite connect_eq, E, with_log_after, new_events_after.
  split; [reflexivity|].
  assert (Hfirst : r = first_error evs).
  { apply connect_log_shape in E. cbv zeta in E.
    destruct E as [(Hr & -> & _)|(mid & -> & Hmid & _)].
    - change (call_connect p c :: stops mem p c)
        with ([call_connect p c] ++ stops mem p c).
      rewrite <- app_assoc, !first_error_app, first_error_stops. simpl.
      destruct (Z.eqb_spec r 0); [contradiction|reflexivity].
    - change (call_connect p c :: stops mem p c)
        with ([call_connect p c] ++ stops mem p c).
      change (cons_add_producer c p r :: rollback mem p c r ++ starts mem p c)
        with ([cons_add_producer c p r]
                ++ rollback mem p c r ++ starts mem p c).
      rewrite <- app_assoc, !first_error_app, first_error_stops,
        first_error_rollback, first_error_starts.
      destruct Hmid as [-> | ->]; simpl;
        destruct (Z.eqb_spec r 0) as [->|]; simpl;
        rewrite ?Z.eqb_refl; try reflexivity;
        destruct (Z.eqb_spec r 0); try contradiction; reflexivity. }
  split; [|split; [exact Hfirst|]].
  - intros x Hin Hx Hdel.
    destruct (connect_log_add_producer mem p c _ _ _ _ _ _ E Hin)
      as (_ & _ & ->).
    apply connect_log_shape in E. cbv zeta in E.
    destruct E as [(_ & -> & _)|(mid & -> & _)].
    + unfold stops in Hin.
      destruct (Prod.stop (producer_at mem p)), (Cons.stop (consumer_at mem c));
        split_in Hin.
    + exists ((call_connect p c :: stops mem p c) ++ mid), (starts mem p c).
      unfold rollback. rewrite Hdel.
      destruct (Z.eqb_spec r 0); [contradiction|]. simpl.
      now rewrite <- app_assoc.
  - rewrite Hfirst. apply first_error_zero_iff.
Qed.

(** A consumer that has its call-backs and refuses: the roll-back is there. *)
Lemma connect_rollback_and_result_witness :
  exists s',
    __connect board 1 12 (init true) = Some (-12, s') /\
    log s' = [call_connect 1 12; prod_stop 1; cons_stop 12;
              prod_add_consumer 1 12 0; cons_add_producer 12 1 (-12);
              prod_del_consumer 1 12; cons_start 12; prod_start 1].
Proof.
  destruct (connect_rollback_and_result board 1 12 (init true) eq_refl)
    as (r & s' & E & _).
  exists s'. vm_compute in E. injection E as <- <-. split; reflexivity.
Defined.

(** ** Registering a consumer *)

(** C8: a consumer whose token is NULL, or that lacks [add_producer] or
    [del_producer], is turned away with [-EINVAL] before anything is touched:
    the state is the same, so the consumer list is, and nothing was called. *)
Theorem register_consumer_invalid (mem : memory) (c : ptr) (s : state) :
  Cons.token (consumer_at mem c) = NULL \/
  Cons.add_producer (consumer_at mem c) = None \/
  Cons.del_producer (consumer_at mem c) = false ->
  irq_bypass_register_consumer mem c s = Some (- EINVAL, s).
Proof.
  intros H. rewrite register_consumer_eq.
  destruct H as [-> | [-> | ->]]; simpl; rewrite ?orb_true_r; reflexivity.
Qed.

(** Consumer 14 has a token and an [add_producer], but no [del_producer]. *)
Lemma register_consumer_invalid_witness :
  Cons.del_producer (consumer_at board 14) = false /\
  irq_bypass_register_consumer board 14 (init true)
  = Some (- EINVAL, init true).
Proof.
  split; [reflexivity|].
  apply (register_consumer_invalid board 14 (init true)).
  right. right. reflexivity.
Defined.

(** C2: when the log of [irq_bypass_register_consumer] shows a call of the
    consumer's [add_producer] that returned a non-zero [x], the register call
    returns [x]; it leaves both lists as they were, so the consumer is not
    linked and the producer of that connect, which has the consumer's token,
    still is; and the module reference count is back where it was. *)
Theorem register_consumer_add_producer_failure
    (mem : memory) (s : state) (c p : ptr) (x : Z) :
  In (cons_add_producer c p x)
     (events_of (irq_bypass_register_consumer mem c) s) ->
  x <> 0 ->
  exists s',
    irq_bypass_register_consumer mem c s = Some (x, s') /\
    consumers s' = consumers s /\
    producers s' = producers s /\
    module_refcnt s' = module_refcnt s /\
    In p (producers s') /\
    prod_token mem p = cons_token mem c.
Proof.
  unfold events_of. rewrite register_consumer_eq.
  destruct (_ || _ || _); [rewrite new_events_self; intros []|].
  destruct (negb (module_live s)); [rewrite new_events_self; intros []|].
  destruct (existsb _ (consumers s)); [rewrite new_events_self; intros []|].
  destruct (find _ (producers s)) as [p0|] eqn:F;
    [|rewrite new_events_after; intros []].
  destruct (connect_log mem p0 c (log s)) as [[r evs]|] eqn:E; [|intros []].
  intros Hin Hx.
  assert (Hev : In (cons_add_producer c p x) evs).
  { destruct (negb (r =? 0)); now rewrite new_events_after in Hin. }
  destruct (connect_log_add_producer mem _ _ _ _ _ _ _ _ E Hev)
    as (_ & -> & ->).
  destruct (Z.eqb_spec r 0) as [|_]; [contradiction|]. cbn [negb].
  apply find_some in F. destruct F as [Fin Ftok].
  eexists. split; [reflexivity|]. simpl.
  repeat split; auto; [lia|]. now apply Z.eqb_eq.
Qed.

(** Producer 1 is registered; consumer 12, of the same token, refuses it. *)
Lemma register_consumer_add_producer_failure_witness :
  exists s s',
    run board [register_producer 1] (init true) = Some (tt, s) /\
    irq_bypass_register_consumer board 12 s = Some (-12, s') /\
    consumers s' = [] /\ producers s' = [1] /\
    module_refcnt s' = module_refcnt s.
Proof.
  exists (after (init true) [1] [] 1 []).
  destruct (register_consumer_add_producer_failure board
              (after (init true) [1] [] 1 []) 12 1 (-12))
    as (s' & E & Hc & Hp & Hr & _).
  - vm_compute. tauto.
  - discriminate.
  - exists s'. repeat split; auto.
Defined.

(** ** What every call preserves *)

Lemma existsb_false {A : Type} (f : A -> bool) (l : list A) :
  existsb f l = false -> forall x, In x l -> f x = false.
Proof.
  intros H x Hin. destruct (f x) eqn:E; [|reflexivity].
  assert (existsb f l = true) by (apply existsb_exists; eauto). congruence.
Qed.

Lemma NoDup_map_filter {A B : Type} (f : A -> B) (g : A -> bool) (l : list A) :
  NoDup (map f l) -> NoDup (map f (filter g l)).
Proof.
  induction l as [|a l IH]; simpl; [auto|].
  intros H. inversion H as [|? ? Hn Hd]; subst.
  destruct (g a); simpl; [|auto].
  constructor; [|auto].
  intros Hin. apply Hn. apply in_map_iff in Hin.
  destruct Hin as (x & Hx & Hin). apply filter_In in Hin.
  apply in_map_iff. exists x. tauto.
Qed.

Lemma list_del_In (x node : ptr) (head : list ptr) :
  In x (list_del node head) <-> In x head /\ x <> node.
Proof.
  unfold list_del. rewrite filter_In.
  destruct (Z.eqb_spec x node); simpl; intuition congruence.
Qed.

Lemma list_del_unlinked (node : ptr) (head : list ptr) :
  ~ In node head -> list_del node head = head.
Proof.
  unfold list_del. induction head as [|a l IH]; simpl; [reflexivity|].
  intros H. destruct (Z.eqb_spec a node) as [->|_]; simpl.
  - exfalso. apply H. now left.
  - f_equal. apply IH. intros Hin. apply H. now right.
Qed.

Lemma list_del_length (node : ptr) (head : list ptr) :
  NoDup head -> In node head ->
  S (length (list_del node head)) = length head.
Proof.
  unfold list_del. induction head as [|a l IH]; simpl; [intros _ []|].
  intros H Hin. inversion H as [|? ? Hn Hd]; subst.
  destruct (Z.eqb_spec a node) as [->|Hne]; simpl.
  - f_equal. fold (list_del node l). now rewrite list_del_unlinked.
  - f_equal. apply IH; [assumption|]. destruct Hin; [contradiction|assumption].
Qed.

Lemma find_none_unlinked (node : ptr) (head : list ptr) :
  ~ In node head -> find (fun tmp => tmp =? node) head = None.
Proof.
  intros H.
  destruct (find (fun tmp => tmp =? node) head) as [x|] eqn:F; [|reflexivity].
  apply find_some in F. destruct F as [Hin E].
  apply Z.eqb_eq in E. subst. contradiction.
Qed.

(** The branches in which an entry point returns the state it was given. *)
Ltac unchanged :=
  let H := fresh "H" in intros H; injection H as <-; auto.

Section Invariant.

Variable mem : memory.

Local Abbreviation P prod := (producer_at mem prod).
Local Abbreviation C cons := (consumer_at mem cons).

Lemma registry_ok_init (live : bool) : registry_ok mem (init live).
Proof.
  constructor; simpl; try constructor.
  intros [H|H]; now elim H.
Qed.

Lemma registry_ok_same (s s' : state) :
  producers s' = producers s -> consumers s' = consumers s ->
  module_live s' = module_live s ->
  registry_ok mem s -> registry_ok mem s'.
Proof.
  intros Hp Hc Hl [H1 H2 H3 H4 H5].
  constructor; rewrite ?Hp, ?Hc, ?Hl; assumption.
Qed.

Lemma registry_ok_list_del_producer (s : state) (p : ptr) (dn : Z) (evs : trace) :
  registry_ok mem s ->
  registry_ok mem (after s (list_del p (producers s)) (consumers s) dn evs).
Proof.
  intros [H1 H2 H3 H4 H5]. constructor; simpl; auto.
  - now apply NoDup_map_filter.
  - apply Forall_forall. intros x Hx. apply list_del_In in Hx.
    rewrite Forall_forall in H3. now apply H3.
  - intros [H|H]; apply H5; [left|now right].
    intros E. rewrite E in H. now apply H.
Qed.

Lemma registry_ok_list_del_consumer (s : state) (c : ptr) (dn : Z) (evs : trace) :
  registry_ok mem s ->
  registry_ok mem (after s (producers s) (list_del c (consumers s)) dn evs).
Proof.
  intros [H1 H2 H3 H4 H5]. constructor; simpl; auto.
  - now apply NoDup_map_filter.
  - apply Forall_forall. intros x Hx. apply list_del_In in Hx.
    rewrite Forall_forall in H4. now apply H4.
  - intros [H|H]; apply H5; [now left|right].
    intros E. rewrite E in H. now apply H.
Qed.

Lemma registry_ok_list_add_producer (s : state) (p : ptr) (dn : Z) (evs : trace) :
  registry_ok mem s ->
  Prod.token (P p) <> NULL ->
  module_live s = true ->
  existsb (fun tmp => Prod.token (P tmp) =? Prod.token (P p)) (producers s)
  = false ->
  registry_ok mem (after s (p :: producers s) (consumers s) dn evs).
Proof.
  intros [H1 H2 H3 H4 H5] Htok Hlive Hnew. constructor; simpl; auto.
  constructor; [|assumption].
  intros Hin. apply in_map_iff in Hin. destruct Hin as (x & Hx & Hin).
  apply (existsb_false _ _ Hnew) in Hin. apply Z.eqb_neq in Hin. auto.
Qed.

Lemma registry_ok_list_add_consumer (s : state) (c : ptr) (dn : Z) (evs : trace) :
  registry_ok mem s ->
  cons_valid mem c ->
  module_live s = true ->
  existsb (fun tmp => (Cons.token (C tmp) =? Cons.token (C c)) || (tmp =? c))
          (consumers s) = false ->
  registry_ok mem (after s (producers s) (c :: consumers s) dn evs).
Proof.
  intros [H1 H2 H3 H4 H5] Hval Hlive Hnew. constructor; simpl; auto.
  constructor; [|assumption].
  intros Hin. apply in_map_iff in Hin. destruct Hin as (x & Hx & Hin).
  apply (existsb_false _ _ Hnew) in Hin. apply orb_false_iff in Hin.
  destruct Hin as [Hin _]. apply Z.eqb_neq in Hin. auto.
Qed.

Lemma cons_valid_test (c : ptr) :
  (Cons.token (C c) =? NULL) || negb (is_set (Cons.add_producer (C c)))
  || negb (Cons.del_producer (C c)) = false ->
  cons_valid mem c.
Proof.
  intros H. apply orb_false_iff in H. destruct H as [H Hd].
  apply orb_false_iff in H. destruct H as [Ht Ha].
  apply Z.eqb_neq in Ht. apply negb_false_iff in Ha, Hd.
  now repeat split.
Qed.

(** Every entry point keeps the registry well formed. *)
Lemma api_ok (a : api_call) (s s' : state) :
  registry_ok mem s -> api mem a s = Some (tt, s') -> registry_ok mem s'.
Proof.
  intros Hok. destruct a as [p|p|c|c]; unfold api, bind, ret.
  - rewrite register_producer_eq.
    destruct (Z.eqb_spec (Prod.token (P p)) NULL) as [|Htok];
      [unchanged|].
    destruct (module_live s) eqn:L; cbn [negb];
      [|unchanged].
    destruct (existsb _ (producers s)) eqn:D;
      [unchanged|].
    destruct (find _ (consumers s)) as [c|].
    + destruct (connect_log mem p c (log s)) as [[r evs]|]; [|discriminate].
      destruct (negb (r =? 0)); intros H; injection H as <-.
      * now apply (registry_ok_same s).
      * now apply registry_ok_list_add_producer.
    + intros H; injection H as <-. now apply registry_ok_list_add_producer.
  - rewrite unregister_producer_eq.
    destruct (Prod.token (P p) =? NULL); [unchanged|].
    destruct (negb (module_live s)); [unchanged|].
    destruct (find _ (producers s)); [|unchanged].
    destruct (find _ (consumers s)) as [c|].
    + destruct (Cons.del_producer (C c)); [|discriminate].
      intros H; injection H as <-. now apply registry_ok_list_del_producer.
    + intros H; injection H as <-. now apply registry_ok_list_del_producer.
  - rewrite register_consumer_eq.
    destruct (_ || _ || _) eqn:V; [unchanged|].
    apply cons_valid_test in V.
    destruct (module_live s) eqn:L; cbn [negb];
      [|unchanged].
    destruct (existsb _ (consumers s)) eqn:D;
      [unchanged|].
    destruct (find _ (producers s)) as [p|].
    + destruct (connect_log mem p c (log s)) as [[r evs]|]; [|discriminate].
      destruct (negb (r =? 0)); intros H; injection H as <-.
      * now apply (registry_ok_same s).
      * now apply registry_ok_list_add_consumer.
    + intros H; injection H as <-. now apply registry_ok_list_add_consumer.
  - rewrite unregister_consumer_eq.
    destruct (Cons.token (C c) =? NULL); [unchanged|].
    destruct (negb (module_live s)); [unchanged|].
    destruct (find (fun tmp => tmp =? c) (consumers s));
      [|unchanged].
    destruct (find _ (producers s)) as [p|].
    + destruct (Cons.del_producer (C c)); [|discriminate].
      intros H; injection H as <-. now apply registry_ok_list_del_consumer.
    + intros H; injection H as <-. now apply registry_ok_list_del_consumer.
Qed.

Lemma run_ok (calls : list api_call) (s s' : state) :
  registry_ok mem s -> run mem calls s = Some (tt, s') -> registry_ok mem s'.
Proof.
  revert s. induction calls as [|a calls IH]; simpl; intros s Hok.
  - unfold ret. unchanged.
  - unfold bind. destruct (api mem a s) as [[[] s1]|] eqn:E; [|discriminate].
    apply IH. now apply (api_ok a s).
Qed.

Lemma reachable_ok (s : state) : reachable mem s -> registry_ok mem s.
Proof.
  intros (live & calls & H). apply (run_ok calls (init live)); auto.
  apply registry_ok_init.
Qed.

(** No entry point runs into a NULL call-back: the consumers on the list
    passed the test of [irq_bypass_register_consumer]. *)
Lemma api_total (a : api_call) (s : state) :
  registry_ok mem s -> exists s', api mem a s = Some (tt, s').
Proof.
  intros Hok. pose proof (ok_cons_valid _ _ Hok) as Hval.
  rewrite Forall_forall in Hval.
  destruct a as [p|p|c|c]; unfold api, bind, ret.
  - rewrite register_producer_eq.
    destruct (Prod.token (P p) =? NULL); [eauto|].
    destruct (negb (module_live s)); [eauto|].
    destruct (existsb _ (producers s)); [eauto|].
    destruct (find _ (consumers s)) as [c|] eqn:F; [|eauto].
    apply find_some in F. destruct F as [Hin _].
    destruct (Hval c Hin) as (_ & Ha & _).
    destruct (connect_log_total mem p c (log s) Ha) as (r & evs & ->).
    destruct (negb (r =? 0)); eauto.
  - rewrite unregister_producer_eq.
    destruct (Prod.token (P p) =? NULL); [eauto|].
    destruct (negb (module_live s)); [eauto|].
    destruct (find _ (producers s)); [|eauto].
    destruct (find _ (consumers s)) as [c|] eqn:F; [|eauto].
    apply find_some in F. destruct F as [Hin _].
    destruct (Hval c Hin) as (_ & _ & ->). eauto.
  - rewrite register_consumer_eq.
    destruct (_ || _ || _) eqn:V; [eauto|].
    apply cons_valid_test in V. destruct V as (_ & Ha & _).
    destruct (negb (module_live s)); [eauto|].
    destruct (existsb _ (consumers s)); [eauto|].
    destruct (find _ (producers s)) as [p|]; [|eauto].
    destruct (connect_log_total mem p c (log s) Ha) as (r & evs & ->).
    destruct (negb (r =? 0)); eauto.
  - rewrite unregister_consumer_eq.
    destruct (Cons.token (C c) =? NULL); [eauto|].
    destruct (negb (module_live s)); [eauto|].
    destruct (find (fun tmp => tmp =? c) (consumers s)) as [tmp|] eqn:F;
      [|eauto].
    apply find_some in F. destruct F as [Hin E]. apply Z.eqb_eq in E. subst tmp.
    destruct (Hval c Hin) as (_ & _ & ->).
    destruct (find _ (producers s)); eauto.
Qed.

Lemma run_total (calls : list api_call) (s : state) :
  registry_ok mem s -> exists s', run mem calls s = Some (tt, s').
Proof.
  revert s. induction calls as [|a calls IH]; simpl; intros s Hok.
  - unfold ret. eauto.
  - unfold bind. destruct (api_total a s Hok) as (s1 & E). rewrite E.
    apply IH. now apply (api_ok a s).
Qed.

End Invariant.

(** C3 as it is written fails: from the empty registry, producer 1 and then
    consumer 12 are registered, both with the token 5 and every call-back.
    There is one connect, of the pair (1, 12); consumer 12 refuses the
    producer, the register call returns -12, and consumer 12 is not on the
    consumer list. *)
Lemma register_pair_refused_counterexample :
  prod_token board 1 = 5 /\ cons_token board 12 = 5 /\
  cons_valid board 12 /\
  exists s1 s2,
    irq_bypass_register_producer board 1 (init true) = Some (0, s1) /\
    irq_bypass_register_consumer board 12 s1 = Some (-12, s2) /\
    connects (log s2) = [(1, 12)] /\
    producers s2 = [1] /\
    ~ In 12 (consumers s2).
Proof.
  split; [reflexivity|]. split; [reflexivity|].
  split; [repeat split; discriminate|].
  do 2 eexists. split; [vm_compute; reflexivity|].
  split; [vm_compute; reflexivity|].
  split; [reflexivity|]. split; [reflexivity|]. intros [].
Qed.

(** C3, amended: from the empty registry of a live module, registering a
    producer with a token that is not NULL and then a consumer with that
    token and both mandatory call-backs enters [__connect] once, with this
    pair, and it does so in the second call, which returns the result of
    that connect, the first non-zero result among its add steps.  The
    producer is then on the producer list.  When the connect succeeded, each
    add step returning 0, the consumer is on the consumer list; when it
    failed the consumer is not. *)
Theorem register_pair_connects_once (mem : memory) (p c : ptr) :
  prod_token mem p <> NULL ->
  cons_token mem c = prod_token mem p ->
  cons_valid mem c ->
  exists s1 r s2,
    irq_bypass_register_producer mem p (init true) = Some (0, s1) /\
    connects (log s1) = [] /\
    irq_bypass_register_consumer mem c s1 = Some (r, s2) /\
    connects (new_events s1 s2) = [(p, c)] /\
    r = first_error (new_events s1 s2) /\
    producers s2 = [p] /\
    (first_error (new_events s1 s2) = 0 -> consumers s2 = [c]) /\
    (first_error (new_events s1 s2) <> 0 -> consumers s2 = []).
Proof.
  unfold prod_token, cons_token. intros Htok Heq (Hct & Ha & Hd).
  exists (after (init true) [p] [] 1 []).
  rewrite register_producer_eq, register_consumer_eq.
  destruct (Z.eqb_spec (Prod.token (producer_at mem p)) NULL) as [|_];
    [contradiction|].
  destruct (Z.eqb_spec (Cons.token (consumer_at mem c)) NULL) as [|_];
    [contradiction|].
  rewrite Ha, Hd. simpl.
  rewrite Heq, Z.eqb_refl.
  destruct (connect_log_total mem p c [] Ha) as (r & evs & E). rewrite E.
  pose proof (connect_log_connects mem _ _ _ _ _ E) as Hconn.
  pose proof (connect_log_first_error mem _ _ _ _ _ E) as Hfirst.
  destruct (Z.eqb_spec r 0) as [Hr|Hr]; cbn [negb].
  - exists 0. eexists. split; [reflexivity|]. split; [reflexivity|].
    split; [reflexivity|]. rewrite new_events_after.
    split; [exact Hconn|]. split; [congruence|]. split; [reflexivity|].
    split; [reflexivity|]. intros Hne. exfalso. apply Hne. congruence.
  - exists r. eexists. split; [reflexivity|]. split; [reflexivity|].
    split; [reflexivity|]. rewrite new_events_after.
    split; [exact Hconn|]. split; [exact Hfirst|]. split; [reflexivity|].
    split; [|reflexivity]. intros H0. exfalso. apply Hr. congruence.
Qed.

(** Producer 1 and consumer 11 share the token 5 and the connect succeeds. *)
Lemma register_pair_connects_once_witness :
  exists s1 s2,
    irq_bypass_register_producer board 1 (init true) = Some (0, s1) /\
    irq_bypass_register_consumer board 11 s1 = Some (0, s2) /\
    connects (new_events s1 s2) = [(1, 11)] /\
    first_error (new_events s1 s2) = 0 /\
    producers s2 = [1] /\ consumers s2 = [11].
Proof.
  destruct (register_pair_connects_once board 1 11)
    as (s1 & r & s2 & E1 & _ & E2 & Hc & Hr & Hp & Hok & _).
  - discriminate.
  - reflexivity.
  - repeat split; discriminate.
  - pose proof E1 as E1'. vm_compute in E1'. injection E1' as <-.
    pose proof E2 as E2'. vm_compute in E2'. injection E2' as <- <-.
    do 2 eexists. split; [exact E1|]. split; [exact E2|].
    split; [exact Hc|]. split; [now symmetry|].
    split; [exact Hp|]. apply Hok. now symmetry.
Defined.

(** ** Duplicates *)

(** C5: in a registry the entry points led to, when a producer with some
    token is on the list, registering a producer with that token returns
    [-EBUSY] and leaves the state as it was: the producer list is the same,
    the log is, so [__connect] was not entered and no call-back was made, and
    the reference taken for the call was given back. *)
Theorem register_producer_duplicate_busy (mem : memory) (s : state) (p p' : ptr) :
  reachable mem s ->
  In p (producers s) ->
  prod_token mem p' = prod_token mem p ->
  irq_bypass_register_producer mem p' s = Some (- EBUSY, s).
Proof.
  unfold prod_token. intros Hr Hin Htok.
  apply reachable_ok in Hr. destruct Hr as [_ _ Hset _ Hlive].
  rewrite Forall_forall in Hset. specialize (Hset p Hin).
  unfold prod_token in Hset.
  rewrite register_producer_eq, Htok.
  destruct (Z.eqb_spec (Prod.token (producer_at mem p)) NULL) as [|_];
    [contradiction|].
  rewrite Hlive by (left; intros E; now rewrite E in Hin). cbn [negb].
  replace (existsb _ (producers s)) with true; [reflexivity|].
  symmetry. apply existsb_exists. exists p. split; [assumption|].
  apply Z.eqb_refl.
Qed.

(** Producers 1 and 2 have the token 5, and producer 1 is registered. *)
Lemma register_producer_duplicate_busy_witness :
  producers paired = [1] /\
  irq_bypass_register_producer board 2 paired = Some (- EBUSY, paired).
Proof.
  split; [reflexivity|].
  apply (register_producer_duplicate_busy board paired 1 2).
  - exists true, [register_producer 1; register_consumer 11]. reflexivity.
  - simpl. now left.
  - reflexivity.
Defined.

(** What one call does to the consumer list. *)
Lemma api_consumers (mem : memory) (a : api_call) (s s' : state) :
  api mem a s = Some (tt, s') ->
  consumers s' = consumers s \/
  (exists c, consumers s' = c :: consumers s /\ ~ In c (consumers s)) \/
  (exists c, consumers s' = list_del c (consumers s)).
Proof.
  destruct a as [p|p|c|c]; unfold api, bind, ret.
  - rewrite register_producer_eq.
    destruct (Prod.token (producer_at mem p) =? NULL); [unchanged|].
    destruct (negb (module_live s)); [unchanged|].
    destruct (existsb _ (producers s)); [unchanged|].
    destruct (find _ (consumers s)) as [c|]; [|unchanged].
    destruct (connect_log mem p c (log s)) as [[r evs]|]; [|discriminate].
    destruct (negb (r =? 0)); unchanged.
  - rewrite unregister_producer_eq.
    destruct (Prod.token (producer_at mem p) =? NULL); [unchanged|].
    destruct (negb (module_live s)); [unchanged|].
    destruct (find _ (producers s)); [|unchanged].
    destruct (find _ (consumers s)) as [c|]; [|unchanged].
    destruct (Cons.del_producer (consumer_at mem c)); [|discriminate].
    unchanged.
  - rewrite register_consumer_eq.
    destruct (_ || _ || _); [unchanged|].
    destruct (negb (module_live s)); [unchanged|].
    destruct (existsb _ (consumers s)) eqn:D; [unchanged|].
    assert (Hc : ~ In c (consumers s)).
    { intros Hin. apply (existsb_false _ _ D) in Hin.
      apply orb_false_iff in Hin. destruct Hin as [_ Hin].
      rewrite Z.eqb_refl in Hin. discriminate. }
    destruct (find _ (producers s)) as [p|].
    + destruct (connect_log mem p c (log s)) as [[r evs]|]; [|discriminate].
      destruct (negb (r =? 0)); unchanged.
      right. left. exists c. now split.
    + unchanged. right. left. exists c. now split.
  - rewrite unregister_consumer_eq.
    destruct (Cons.token (consumer_at mem c) =? NULL); [unchanged|].
    destruct (negb (module_live s)); [unchanged|].
    destruct (find (fun tmp => tmp =? c) (consumers s)); [|unchanged].
    destruct (find _ (producers s)) as [p|].
    + destruct (Cons.del_producer (consumer_at mem c)); [|discriminate].
      unchanged. right. right. now exists c.
    + unchanged. right. right. now exists c.
Qed.

(** Whatever the callers write into their objects between the calls, a
    consumer is never linked twice: [irq_bypass_register_consumer] compares
    the pointers as well as the tokens. *)
Lemma consumers_never_twice (steps : list (memory * api_call)) (s s' : state) :
  NoDup (consumers s) ->
  run_written steps s = Some (tt, s') ->
  NoDup (consumers s').
Proof.
  revert s. induction steps as [|[mem a] steps IH]; simpl; intros s Hs.
  - unfold ret. unchanged.
  - unfold bind. destruct (api mem a s) as [[[] s1]|] eqn:E; [|discriminate].
    apply IH. apply api_consumers in E.
    destruct E as [-> | [(c & -> & Hc) | (c & ->)]].
    + assumption.
    + now constructor.
    + now apply NoDup_filter.
Qed.

(** C6: every sequence of calls of the four entry points, from the empty
    registry, runs to its end, and in the registry it ends in no two
    producers on the list have the same token, no two consumers on the list
    have the same token, and no consumer is on the list twice. *)
Theorem registry_one_per_token (mem : memory) (live : bool)
    (calls : list api_call) :
  exists s, run mem calls (init live) = Some (tt, s) /\ one_per_token mem s.
Proof.
  destruct (run_total mem calls (init live) (registry_ok_init mem live))
    as (s & E).
  exists s. split; [exact E|].
  destruct (run_ok mem calls _ _ (registry_ok_init mem live) E)
    as [Hp Hc _ _ _].
  repeat split; auto. now apply NoDup_map_inv in Hc.
Qed.

(** Attempts to register a second producer, a second consumer and the same
    consumer again, all with the token 5, leave one of each. *)
Lemma registry_one_per_token_witness :
  run board [register_producer 1; register_consumer 11; register_producer 2;
             register_consumer 15; register_consumer 11] (init true)
  = Some (tt, paired) /\
  one_per_token board paired.
Proof.
  destruct (registry_one_per_token board true
              [register_producer 1; register_consumer 11; register_producer 2;
               register_consumer 15; register_consumer 11]) as (s & E & H).
  pose proof E as E'. vm_compute in E'. injection E' as <-.
  split; [exact E|exact H].
Defined.

(** ** Unregistering *)

Lemma NoDup_map_eq {A B : Type} (f : A -> B) (l : list A) (x y : A) :
  NoDup (map f l) -> In x l -> In y l -> f x = f y -> x = y.
Proof.
  induction l as [|a l IH]; simpl; [intros _ []|].
  intros H Hx Hy E. inversion H as [|? ? Hn Hd]; subst.
  destruct Hx as [->|Hx], Hy as [->|Hy]; auto.
  - exfalso. apply Hn. rewrite E. now apply in_map.
  - exfalso. apply Hn. rewrite <- E. now apply in_map.
Qed.

Lemma find_is_some {A : Type} (f : A -> bool) (l : list A) (x : A) :
  In x l -> f x = true -> exists y, find f l = Some y.
Proof.
  intros Hin Hx. destruct (find f l) as [y|] eqn:F; [eauto|].
  rewrite (find_none f l F x Hin) in Hx. discriminate.
Qed.

Section Unregister.

Variable mem : memory.

Local Abbreviation P prod := (producer_at mem prod).
Local Abbreviation C cons := (consumer_at mem cons).

(** A consumer that is not on the list: nothing happens. *)
Lemma unregister_consumer_unlinked (c : ptr) (s : state) :
  ~ In c (consumers s) ->
  irq_bypass_unregister_consumer mem c s = Some (tt, s).
Proof.
  intros H. rewrite unregister_consumer_eq, (find_none_unlinked c _ H).
  destruct (Cons.token (C c) =? NULL), (negb (module_live s)); reflexivity.
Qed.

(** A producer whose token no producer on the list has: nothing happens. *)
Lemma unregister_producer_unmatched (p : ptr) (s : state) :
  (forall tmp, In tmp (producers s) -> prod_token mem tmp <> prod_token mem p) ->
  irq_bypass_unregister_producer mem p s = Some (tt, s).
Proof.
  intros H. rewrite unregister_producer_eq.
  destruct (find _ (producers s)) as [tmp|] eqn:F.
  - apply find_some in F. destruct F as [Hin E]. apply Z.eqb_eq in E.
    now elim (H tmp Hin).
  - destruct (Prod.token (P p) =? NULL), (negb (module_live s)); reflexivity.
Qed.

(** The reference count follows the number of linked objects through every
    call, except for [irq_bypass_unregister_producer] on a producer that is
    not on the list while another producer with its token is. *)
Lemma api_balanced (a : api_call) (s s' : state) :
  registry_ok mem s ->
  refs_balanced s ->
  (forall p, a = unregister_producer p ->
             In p (producers s) \/
             forall tmp, In tmp (producers s) ->
                         prod_token mem tmp <> prod_token mem p) ->
  api mem a s = Some (tt, s') ->
  refs_balanced s'.
Proof.
  unfold refs_balanced. intros Hok Hb Hmine.
  destruct a as [p|p|c|c]; unfold api, bind, ret.
  - rewrite register_producer_eq.
    destruct (Prod.token (P p) =? NULL); [unchanged|].
    destruct (negb (module_live s)); [unchanged|].
    destruct (existsb _ (producers s)); [unchanged|].
    destruct (find _ (consumers s)) as [c|].
    + destruct (connect_log mem p c (log s)) as [[r evs]|]; [|discriminate].
      destruct (negb (r =? 0)); intros H; injection H as <-; simpl in *; lia.
    + intros H; injection H as <-; simpl in *; lia.
  - destruct (Hmine p eq_refl) as [Hin|Hno].
    + rewrite unregister_producer_eq.
      destruct (Prod.token (P p) =? NULL); [unchanged|].
      destruct (negb (module_live s)); [unchanged|].
      destruct (find _ (producers s)); [|unchanged].
      pose proof (list_del_length p (producers s)
                    (NoDup_map_inv _ _ (ok_prod_tokens _ _ Hok)) Hin) as Hlen.
      destruct (find _ (consumers s)) as [c|].
      * destruct (Cons.del_producer (C c)); [|discriminate].
        intros H; injection H as <-; simpl in *; lia.
      * intros H; injection H as <-; simpl in *; lia.
    + rewrite (unregister_producer_unmatched p s Hno).
      unchanged.
  - rewrite register_consumer_eq.
    destruct (_ || _ || _); [unchanged|].
    destruct (negb (module_live s)); [unchanged|].
    destruct (existsb _ (consumers s)); [unchanged|].
    destruct (find _ (producers s)) as [p|].
    + destruct (connect_log mem p c (log s)) as [[r evs]|]; [|discriminate].
      destruct (negb (r =? 0)); intros H; injection H as <-; simpl in *; lia.
    + intros H; injection H as <-; simpl in *; lia.
  - rewrite unregister_consumer_eq.
    destruct (Cons.token (C c) =? NULL); [unchanged|].
    destruct (negb (module_live s)); [unchanged|].
    destruct (find (fun tmp => tmp =? c) (consumers s)) as [tmp|] eqn:F;
      [|unchanged].
    apply find_some in F. destruct F as [Hin E]. apply Z.eqb_eq in E. subst tmp.
    pose proof (list_del_length c (consumers s)
                  (NoDup_map_inv _ _ (ok_cons_tokens _ _ Hok)) Hin) as Hlen.
    destruct (find _ (producers s)) as [p|].
    + destruct (Cons.del_producer (C c)); [|discriminate].
      intros H; injection H as <-; simpl in *; lia.
    + intros H; injection H as <-; simpl in *; lia.
Qed.

End Unregister.

(** C7, at the input where it fails: producer 1 and consumer 11 are
    registered and connected; producer 2, another object with the token of
    producer 1, was turned away with [-EBUSY] and is not on the list.
    [irq_bypass_unregister_producer] on producer 2 finds the token on the list
    and goes through a disconnect of producer 2 and consumer 11, call-backs
    included; it also gives back the reference held for producer 1, which
    stays on the list. *)
Theorem unregister_unlinked_producer_disconnects :
  irq_bypass_register_producer board 2 paired = Some (- EBUSY, paired) /\
  ~ In 2 (producers paired) /\
  exists s',
    irq_bypass_unregister_producer board 2 paired = Some (tt, s') /\
    new_events paired s'
    = [call_disconnect 2 11; prod_stop 2; cons_stop 11;
       cons_del_producer 11 2; prod_del_consumer 2 11;
       cons_start 11; prod_start 2] /\
    module_refcnt s' = module_refcnt paired - 1 /\
    producers s' = [1] /\ consumers s' = [11].
Proof.
  split; [reflexivity|]. split.
  - simpl. intros [H|[]]. discriminate.
  - eexists. split; [vm_compute; reflexivity|]. repeat split.
Qed.

(** C9, at the input where it fails: producer 1 is registered, producer 2,
    another object with the same token, is turned away, and then
    [irq_bypass_unregister_producer] is called on producer 2.  All three
    calls complete.  Producer 1 is still on the list and the manager holds no
    reference for it. *)
Theorem unregister_unlinked_producer_drops_reference :
  exists s,
    run board [register_producer 1; register_producer 2;
               unregister_producer 2] (init true)
    = Some (tt, s) /\
    producers s = [1] /\ consumers s = [] /\
    module_refcnt s = 0 /\
    ~ refs_balanced s.
Proof.
  eexists. split; [vm_compute; reflexivity|].
  repeat split. unfold refs_balanced. simpl. discriminate.
Qed.

(** C10: in a registry the entry points led to, the two unregister functions
    part ways on an object that is not the registered one but has its token.
    [irq_bypass_unregister_consumer] looks for the object itself: it finds
    nothing and leaves the state as it was, log included.
    [irq_bypass_unregister_producer] looks for the token: it finds it, gives
    back the reference held for the registration, and disconnects the object
    it was given from the consumer with that token, if there is one. *)
Theorem unregister_by_identity_or_token (mem : memory) (s : state) :
  reachable mem s ->
  (forall c c',
      In c (consumers s) -> c' <> c ->
      cons_token mem c' = cons_token mem c ->
      irq_bypass_unregister_consumer mem c' s = Some (tt, s))
  /\
  (forall p p',
      In p (producers s) -> p' <> p ->
      prod_token mem p' = prod_token mem p ->
      exists s',
        irq_bypass_unregister_producer mem p' s = Some (tt, s') /\
        module_refcnt s' = module_refcnt s - 1 /\
        s' <> s /\
        (forall c, In c (consumers s) ->
                   cons_token mem c = prod_token mem p ->
                   new_events s s' = disconnected mem p' c)).
Proof.
  intros Hr. apply reachable_ok in Hr.
  destruct Hr as [Hpt Hct Hset Hval Hlive]. split.
  - intros c c' Hin Hne Htok. apply unregister_consumer_unlinked.
    intros Hin'. apply Hne. now apply (NoDup_map_eq _ _ _ _ Hct Hin' Hin).
  - intros p p' Hin Hne Htok.
    rewrite Forall_forall in Hset, Hval. specialize (Hset p Hin).
    unfold prod_token, cons_token in *.
    rewrite unregister_producer_eq, Htok.
    destruct (Z.eqb_spec (Prod.token (producer_at mem p)) NULL) as [|_];
      [contradiction|].
    rewrite Hlive by (left; intros E; now rewrite E in Hin). cbn [negb].
    destruct (find_is_some
                (fun tmp => Prod.token (producer_at mem tmp)
                            =? Prod.token (producer_at mem p))
                (producers s) p Hin (Z.eqb_refl _)) as (tmp & ->).
    destruct (find _ (consumers s)) as [c0|] eqn:F.
    + apply find_some in F. destruct F as [Hin0 E0]. apply Z.eqb_eq in E0.
      destruct (Hval c0 Hin0) as (_ & _ & ->).
      eexists. split; [reflexivity|]. split; [simpl; lia|]. split.
      * intros E. apply (f_equal module_refcnt) in E. simpl in E. lia.
      * intros c Hc Ec. rewrite new_events_after. f_equal.
        apply (NoDup_map_eq _ _ _ _ Hct Hin0 Hc). unfold cons_token. congruence.
    + eexists. split; [reflexivity|]. split; [simpl; lia|]. split.
      * intros E. apply (f_equal module_refcnt) in E. simpl in E. lia.
      * intros c Hc Ec. apply (find_none _ _ F) in Hc.
        apply Z.eqb_neq in Hc. contradiction.
Qed.

(** Consumer 15 against the registered consumer 11, and producer 2 against
    the registered producer 1, all with the token 5. *)
Lemma unregister_by_identity_or_token_witness :
  irq_bypass_unregister_consumer board 15 paired = Some (tt, paired) /\
  exists s',
    irq_bypass_unregister_producer board 2 paired = Some (tt, s') /\
    module_refcnt s' = 1 /\
    new_events paired s' = disconnected board 2 11.
Proof.
  destruct (unregister_by_identity_or_token board paired) as [Hc Hp].
  - exists true, [register_producer 1; register_consumer 11]. reflexivity.
  - split.
    + apply (Hc 11 15); [simpl; now left | discriminate | reflexivity].
    + destruct (Hp 1 2) as (s' & E & Hn & _ & Hd);
        [simpl; now left | discriminate | reflexivity |].
      exists s'. split; [exact E|]. split; [exact Hn|].
      apply Hd; [simpl; now left | reflexivity].
Defined.

(** * Further properties of the manager *)

(** ** The protocol of a connect and of a disconnect *)

Lemma forallb_stops (mem : memory) (p c : ptr) :
  forallb is_stop (stops mem p c) = true.
Proof.
  unfold stops.
  destruct (Prod.stop (producer_at mem p)), (Cons.stop (consumer_at mem c));
    reflexivity.
Qed.

Lemma forallb_starts (mem : memory) (p c : ptr) :
  forallb is_start (starts mem p c) = true.
Proof.
  unfold starts.
  destruct (Cons.start (consumer_at mem c)), (Prod.start (producer_at mem p));
    reflexivity.
Qed.

Lemma forallb_rollback (mem : memory) (p c : ptr) (r : Z) :
  forallb is_wiring (rollback mem p c r) = true.
Proof.
  unfold rollback.
  destruct (negb (r =? 0) && Prod.del_consumer (producer_at mem p));
    reflexivity.
Qed.

(** X1: a connect with a consumer that has its [add_producer] returns, and
    its call-backs come in three runs: first the [stop] of the producer and
    of the consumer, as far as they have one; then the calls that change the
    wiring, and nothing else; last the [start] of the consumer and of the
    producer, as far as they have one.  The last run is missing altogether
    in one case only, after an [add_consumer] that failed. *)
Theorem connect_quiesced (mem : memory) (p c : ptr) (s : state) :
  is_set (Cons.add_producer (consumer_at mem c)) = true ->
  exists r s' wiring restart,
    __connect mem p c s = Some (r, s') /\
    new_events s s'
    = call_connect p c :: stops mem p c ++ wiring ++ restart /\
    forallb is_stop (stops mem p c) = true /\
    forallb is_wiring wiring = true /\
    (restart = starts mem p c \/
     (restart = [] /\ In (prod_add_consumer p c r) wiring /\ r <> 0)).
Proof.
  intros Hc.
  destruct (connect_log_total mem p c (log s) Hc) as (r & evs & E).
  exists r, (with_log s (log s ++ evs)).
  rewrite connect_eq, E, with_log_after, new_events_after.
  apply connect_log_shape in E. cbv zeta in E.
  destruct E as [(Hr & -> & _)|(mid & -> & Hmid & _)].
  - exists [prod_add_consumer p c r], [].
    split; [reflexivity|]. split; [reflexivity|].
    split; [apply forallb_stops|]. split; [reflexivity|].
    right. simpl. auto.
  - exists (mid ++ cons_add_producer c p r :: rollback mem p c r),
           (starts mem p c).
    split; [reflexivity|]. split.
    { simpl. rewrite <- !app_assoc. simpl. reflexivity. }
    split; [apply forallb_stops|]. split; [|now left].
    rewrite forallb_app. simpl. rewrite forallb_rollback.
    destruct Hmid as [-> | ->]; reflexivity.
Qed.

(** Producer 1 and consumer 11 have all their call-backs, and agree. *)
Lemma connect_quiesced_witness :
  exists s',
    __connect board 1 11 (init true) = Some (0, s') /\
    new_events (init true) s'
    = call_connect 1 11 :: [prod_stop 1; cons_stop 11]
      ++ [prod_add_consumer 1 11 0; cons_add_producer 11 1 0]
      ++ [cons_start 11; prod_start 1].
Proof.
  destruct (connect_quiesced board 1 11 (init true) eq_refl)
    as (r & s' & wiring & restart & E & _).
  pose proof E as E'. vm_compute in E'. injection E' as <- <-.
  eexists. split; [exact E|]. reflexivity.
Defined.

(** X2: [__disconnect] returns exactly when the consumer has its
    [del_producer].  Then it leaves the lists and the reference count alone,
    and its call-backs are: the [stop]s, [del_producer] of the consumer,
    [del_consumer] of the producer if it has one, and always the [start]s;
    the consumer is unwired before the producer. *)
Theorem disconnect_unwires_and_restarts (mem : memory) (p c : ptr) (s : state) :
  (__disconnect mem p c s = None <->
   Cons.del_producer (consumer_at mem c) = false) /\
  forall s',
    __disconnect mem p c s = Some (tt, s') ->
    producers s' = producers s /\ consumers s' = consumers s /\
    module_refcnt s' = module_refcnt s /\
    exists wiring,
      new_events s s'
      = call_disconnect p c :: stops mem p c ++ wiring ++ starts mem p c /\
      (wiring = [cons_del_producer c p] \/
       wiring = [cons_del_producer c p; prod_del_consumer p c]) /\
      (In (prod_del_consumer p c) wiring <->
       Prod.del_consumer (producer_at mem p) = true).
Proof.
  rewrite disconnect_eq.
  destruct (Cons.del_producer (consumer_at mem c)); split.
  - split; discriminate.
  - intros s' H; injection H as <-. rewrite with_log_after, new_events_after.
    simpl. split; [reflexivity|]. split; [reflexivity|]. split; [lia|].
    unfold disconnected.
    destruct (Prod.del_consumer (producer_at mem p)).
    + exists [cons_del_producer c p; prod_del_consumer p c].
      split; [|split; [now right|split; [reflexivity|simpl; auto]]].
      reflexivity.
    + exists [cons_del_producer c p].
      split; [|split; [now left|split; [|discriminate]]].
      * reflexivity.
      * simpl. intros [H|[]]. discriminate.
  - split; reflexivity.
  - discriminate.
Qed.

(** The disconnect of producer 1 and consumer 11. *)
Lemma disconnect_unwires_and_restarts_witness :
  exists s',
    __disconnect board 1 11 paired = Some (tt, s') /\
    new_events paired s'
    = [call_disconnect 1 11; prod_stop 1; cons_stop 11;
       cons_del_producer 11 1; prod_del_consumer 1 11;
       cons_start 11; prod_start 1].
Proof.
  destruct (disconnect_unwires_and_restarts board 1 11 paired) as [_ H].
  eassert (E : __disconnect board 1 11 paired = Some (tt, _))
    by (vm_compute; reflexivity).
  eexists. split; [exact E|].
  destruct (H _ E) as (_ & _ & _ & w & Hw & _). vm_compute. reflexivity.
Defined.

(** X3: when the log of a connect shows an [add_consumer] that returned a
    non-zero [x], the connect returned [x] and that call is the only one that
    touched the wiring: [add_producer] of the consumer was not called, and
    there was nothing to roll back. *)
Theorem connect_refused_wires_nothing (mem : memory) (p c : ptr) (s : state)
    (r x : Z) (s' : state) :
  __connect mem p c s = Some (r, s') ->
  In (prod_add_consumer p c x) (new_events s s') -> x <> 0 ->
  r = x /\
  forall e, In e (new_events s s') -> is_wiring e = true ->
            e = prod_add_consumer p c x.
Proof.
  rewrite connect_eq.
  destruct (connect_log mem p c (log s)) as [[r0 evs]|] eqn:E; [|discriminate].
  intros H; injection H as -> <-.
  rewrite with_log_after, new_events_after.
  apply connect_log_shape in E. cbv zeta in E.
  destruct E as [(Hr & -> & _)|(mid & -> & Hmid & _)]; intros Hin Hx.
  - assert (x = r) as ->.
    { unfold stops in Hin.
      destruct (Prod.stop (producer_at mem p)), (Cons.stop (consumer_at mem c));
        split_in Hin; now injection Hin. }
    split; [reflexivity|]. intros e He Hw. unfold stops in He.
    destruct (Prod.stop (producer_at mem p)), (Cons.stop (consumer_at mem c));
      split_in He; subst e; try discriminate; reflexivity.
  - exfalso. unfold stops, rollback, starts in Hin.
    destruct Hmid as [-> | ->];
    destruct (Prod.stop (producer_at mem p)), (Cons.stop (consumer_at mem c)),
      (negb (r =? 0) && Prod.del_consumer (producer_at mem p)),
      (Cons.start (consumer_at mem c)), (Prod.start (producer_at mem p));
      split_in Hin; injection Hin as <-; contradiction.
Qed.

(** Producer 3 refuses consumer 13. *)
Lemma connect_refused_wires_nothing_witness :
  exists s',
    __connect board 3 13 (init true) = Some (-22, s') /\
    forall e, In e (new_events (init true) s') -> is_wiring e = true ->
              e = prod_add_consumer 3 13 (-22).
Proof.
  eexists. split; [vm_compute; reflexivity|].
  apply (connect_refused_wires_nothing board 3 13 (init true) (-22) (-22)).
  - vm_compute. reflexivity.
  - vm_compute. tauto.
  - discriminate.
Defined.

(** X4: a connect that returned 0 called [add_producer] of the consumer,
    with the result 0, never called [del_consumer], and ended with the [start]
    of the consumer and then of the producer. *)
Theorem connect_success_keeps_wiring (mem : memory) (p c : ptr) (s s' : state) :
  __connect mem p c s = Some (0, s') ->
  In (cons_add_producer c p 0) (new_events s s') /\
  ~ In (prod_del_consumer p c) (new_events s s') /\
  exists before, new_events s s' = before ++ starts mem p c.
Proof.
  rewrite connect_eq.
  destruct (connect_log mem p c (log s)) as [[r0 evs]|] eqn:E; [|discriminate].
  intros H; injection H as -> <-.
  rewrite with_log_after, new_events_after.
  apply connect_log_shape in E. cbv zeta in E.
  destruct E as [(Hr & _)|(mid & -> & Hmid & _)]; [contradiction|].
  unfold rollback. simpl. split; [|split].
  - right. rewrite !in_app_iff. right. right. now left.
  - unfold stops, starts.
    destruct Hmid as [-> | ->];
    destruct (Prod.stop (producer_at mem p)), (Cons.stop (consumer_at mem c)),
      (Cons.start (consumer_at mem c)), (Prod.start (producer_at mem p));
      intros Hin; split_in Hin.
  - exists (call_connect p c :: stops mem p c ++ mid ++ [cons_add_producer c p 0]).
    simpl. rewrite <- !app_assoc. reflexivity.
Qed.

Lemma connect_success_keeps_wiring_witness :
  exists s',
    __connect board 1 11 (init true) = Some (0, s') /\
    ~ In (prod_del_consumer 1 11) (new_events (init true) s').
Proof.
  eexists. split; [vm_compute; reflexivity|].
  apply (connect_success_keeps_wiring board 1 11 (init true)).
  vm_compute. reflexivity.
Defined.

(** ** Registering, case by case *)

Lemma cons_valid_passes (mem : memory) (c : ptr) :
  cons_valid mem c ->
  (Cons.token (consumer_at mem c) =? NULL)
  || negb (is_set (Cons.add_producer (consumer_at mem c)))
  || negb (Cons.del_producer (consumer_at mem c)) = false.
Proof.
  intros (Ht & -> & ->). apply Z.eqb_neq in Ht. now rewrite Ht.
Qed.

(** X5: once [try_module_get] fails, no entry point does anything: each of
    the four returns with the state as it was, and the two register
    functions, given an object they would otherwise take, return [-ENODEV]. *)
Theorem module_going_nothing_happens (mem : memory) (s : state) :
  module_live s = false ->
  (forall a, api mem a s = Some (tt, s)) /\
  (forall p, prod_token mem p <> NULL ->
             irq_bypass_register_producer mem p s = Some (- ENODEV, s)) /\
  (forall c, cons_valid mem c ->
             irq_bypass_register_consumer mem c s = Some (- ENODEV, s)).
Proof.
  intros L. split; [|split].
  - intros [p|p|c|c]; unfold api, bind, ret.
    + rewrite register_producer_eq, L.
      destruct (Prod.token (producer_at mem p) =? NULL); reflexivity.
    + rewrite unregister_producer_eq, L.
      destruct (Prod.token (producer_at mem p) =? NULL); reflexivity.
    + rewrite register_consumer_eq, L. destruct (_ || _ || _); reflexivity.
    + rewrite unregister_consumer_eq, L.
      destruct (Cons.token (consumer_at mem c) =? NULL); reflexivity.
  - intros p Hp. unfold prod_token in Hp. rewrite register_producer_eq, L.
    destruct (Z.eqb_spec (Prod.token (producer_at mem p)) NULL);
      [contradiction|reflexivity].
  - intros c Hc. rewrite register_consumer_eq, L, (cons_valid_passes mem c Hc).
    reflexivity.
Qed.

Lemma module_going_nothing_happens_witness :
  irq_bypass_register_producer board 1 (init false)
  = Some (- ENODEV, init false) /\
  irq_bypass_unregister_consumer board 11 (init false)
  = Some (tt, init false).
Proof.
  destruct (module_going_nothing_happens board (init false) eq_refl)
    as (Hall & Hp & _).
  split.
  - apply Hp. discriminate.
  - apply (Hall (unregister_consumer 11)).
Defined.

Lemma delete_module_ok (mem : memory) (s s' : state) :
  registry_ok mem s -> refs_balanced s ->
  delete_module s = Some (tt, s') ->
  registry_ok mem s' /\ refs_balanced s'.
Proof.
  intros Hok Hb. unfold delete_module.
  destruct (Z.eqb_spec (module_refcnt s) 0) as [E|_];
    intros H; injection H as <-; [|auto].
  split; [|exact Hb].
  destruct Hok as [H1 H2 H3 H4 H5]. constructor; simpl; auto.
  unfold refs_balanced in Hb. rewrite E in Hb.
  destruct (producers s), (consumers s); simpl in Hb; try lia.
  intros [H|H]; now elim H.
Qed.

Lemma run_life_ok (mem : memory) (steps : list step) (s : state) :
  registry_ok mem s -> refs_balanced s -> life_aimed mem steps s ->
  exists s', run_life mem steps s = Some (tt, s') /\
             registry_ok mem s' /\ refs_balanced s'.
Proof.
  revert s. induction steps as [|st steps IH]; simpl; intros s Hok Hb Ha.
  - exists s. auto.
  - destruct Ha as [Ha Hrest]. unfold bind.
    destruct st as [a|]; simpl in *.
    + destruct (api_total mem a s Hok) as (s1 & E). rewrite E.
      apply IH; [now apply (api_ok mem a s)| |now apply Hrest].
      apply (api_balanced mem a s s1 Hok Hb); [|exact E].
      intros p ->. exact Ha.
    + destruct (delete_module s) as [[[] s1]|] eqn:E.
      * destruct (delete_module_ok mem s s1 Hok Hb E) as [Hok1 Hb1].
        apply IH; auto.
      * unfold delete_module in E. destruct (module_refcnt s =? 0); discriminate.
Qed.

(** X6: the remark in the two unregister functions, "nothing in the list
    anyway".  Take a live module and the empty registry, and any sequence of
    calls of the entry points and attempts to unload the module, an attempt
    taking effect when no reference is held; let
    [irq_bypass_unregister_producer] only be given producers that are on the
    list, or whose token no producer on the list has.  The sequence runs to
    its end, and if [try_module_get] cannot succeed then, both lists are
    empty: every object on a list holds a reference. *)
Theorem nothing_in_the_list_anyway (mem : memory) (steps : list step) :
  life_aimed mem steps (init true) ->
  exists s,
    run_life mem steps (init true) = Some (tt, s) /\
    (module_live s = false -> producers s = [] /\ consumers s = []).
Proof.
  intros Ha.
  destruct (run_life_ok mem steps (init true) (registry_ok_init mem true)
              eq_refl Ha) as (s & E & Hok & _).
  exists s. split; [exact E|]. intros L.
  destruct Hok as [_ _ _ _ Hlive].
  destruct (producers s) as [|p ps].
  - split; [reflexivity|]. destruct (consumers s) as [|c cs]; [reflexivity|].
    rewrite Hlive in L by (right; discriminate). discriminate.
  - rewrite Hlive in L by (left; discriminate). discriminate.
Qed.

(** Producer 1 comes; an unload is refused while it is registered; it goes,
    the module is unloaded, and consumer 11 comes too late. *)
Lemma nothing_in_the_list_anyway_witness :
  exists s,
    run_life board [call_api (register_producer 1); unload;
                    call_api (unregister_producer 1); unload;
                    call_api (register_consumer 11)] (init true)
    = Some (tt, s) /\
    module_live s = false /\ producers s = [] /\ consumers s = [].
Proof.
  destruct (nothing_in_the_list_anyway board
              [call_api (register_producer 1); unload;
               call_api (unregister_producer 1); unload;
               call_api (register_consumer 11)]) as (s & E & H).
  - simpl. split; [exact I|]. intros s1 E1.
    vm_compute in E1. injection E1 as <-.
    split; [exact I|]. intros s2 E2.
    vm_compute in E2. injection E2 as <-.
    split; [left; simpl; now left|]. intros s3 _.
    split; [exact I|]. intros s4 _.
    split; [exact I|]. intros s5 _. exact I.
  - pose proof E as E'. vm_compute in E'. injection E' as <-.
    eexists. split; [exact E|]. split; [reflexivity|].
    apply H. reflexivity.
Defined.

(** The condition on [irq_bypass_unregister_producer] is needed here too:
    after the call on producer 2, which is not on the list and has the token
    of producer 1, no reference is held, the module can go, and producer 1 is
    still on the list. *)
Lemma unaimed_unregister_lets_module_go :
  exists s,
    run_life board [call_api (register_producer 1);
                    call_api (register_producer 2);
                    call_api (unregister_producer 2); unload] (init true)
    = Some (tt, s) /\
    module_live s = false /\ producers s = [1].
Proof.
  eexists. split; [vm_compute; reflexivity|]. split; reflexivity.
Qed.

(** X7: a consumer that passes the first test is turned away with [-EBUSY],
    and the state is as it was, when a consumer with its token is on the
    list, and also when the consumer itself is on the list, whatever its
    token is by now. *)
Theorem register_consumer_duplicate_busy (mem : memory) (s : state) (c : ptr) :
  module_live s = true ->
  cons_valid mem c ->
  In c (consumers s) \/
  (exists c', In c' (consumers s) /\ cons_token mem c' = cons_token mem c) ->
  irq_bypass_register_consumer mem c s = Some (- EBUSY, s).
Proof.
  intros L Hc Hdup.
  rewrite register_consumer_eq, (cons_valid_passes mem c Hc), L. cbn [negb].
  replace (existsb _ (consumers s)) with true; [reflexivity|].
  symmetry. apply existsb_exists.
  destruct Hdup as [Hin|(c' & Hin & Htok)].
  - exists c. split; [assumption|].
    apply orb_true_iff. right. apply Z.eqb_refl.
  - exists c'. split; [assumption|]. unfold cons_token in Htok.
    now rewrite Htok, Z.eqb_refl.
Qed.

(** Consumer 11 again, now with the token 8, and consumer 15 with the token
    consumer 11 was registered with. *)
Lemma register_consumer_duplicate_busy_witness :
  cons_token board_retagged 11 = 8 /\
  irq_bypass_register_consumer board_retagged 11 paired
  = Some (- EBUSY, paired) /\
  irq_bypass_register_consumer board 15 paired = Some (- EBUSY, paired).
Proof.
  split; [reflexivity|]. split.
  - apply (register_consumer_duplicate_busy board_retagged paired 11);
      [reflexivity | repeat split; discriminate | left; simpl; now left].
  - apply (register_consumer_duplicate_busy board paired 15);
      [reflexivity | repeat split; discriminate |].
    right. exists 11. split; [simpl; now left|reflexivity].
Defined.

(** X8: [irq_bypass_register_producer] registers all or nothing.  It never
    touches the consumer list.  When it returns 0 the producer is linked at
    the head of the list, its token is not NULL and one module reference was
    taken; when it returns anything else the list and the reference count
    are as before. *)
Theorem register_producer_all_or_nothing (mem : memory) (p : ptr)
    (s : state) (r : Z) (s' : state) :
  irq_bypass_register_producer mem p s = Some (r, s') ->
  consumers s' = consumers s /\
  ((r = 0 /\ producers s' = p :: producers s /\
    module_refcnt s' = module_refcnt s + 1 /\ prod_token mem p <> NULL)
   \/
   (r <> 0 /\ producers s' = producers s /\
    module_refcnt s' = module_refcnt s)).
Proof.
  rewrite register_producer_eq. unfold prod_token.
  destruct (Z.eqb_spec (Prod.token (producer_at mem p)) NULL) as [|Htok].
  { intros H; injection H as <- <-. split; [reflexivity|]. right.
    repeat split; discriminate. }
  destruct (negb (module_live s)).
  { intros H; injection H as <- <-. split; [reflexivity|]. right.
    repeat split; discriminate. }
  destruct (existsb _ (producers s)).
  { intros H; injection H as <- <-. split; [reflexivity|]. right.
    repeat split; discriminate. }
  destruct (find _ (consumers s)) as [c|].
  - destruct (connect_log mem p c (log s)) as [[r0 evs]|]; [|discriminate].
    destruct (Z.eqb_spec r0 0) as [->|Hr]; cbn [negb];
      intros H; injection H as <- <-; (split; [reflexivity|]).
    + left. simpl. repeat split; auto.
    + right. simpl. repeat split; auto. lia.
  - intros H; injection H as <- <-. split; [reflexivity|]. left.
    simpl. repeat split; auto.
Qed.

(** Producer 1 is taken; producer 3 refuses the registered consumer 13. *)
Lemma register_producer_all_or_nothing_witness :
  exists s',
    irq_bypass_register_producer board 3
      (after (init true) [] [13] 1 []) = Some (-22, s') /\
    producers s' = [] /\ consumers s' = [13] /\ module_refcnt s' = 1.
Proof.
  eassert (E : irq_bypass_register_producer board 3
                 (after (init true) [] [13] 1 []) = Some (-22, _))
    by (vm_compute; reflexivity).
  eexists. split; [exact E|].
  destruct (register_producer_all_or_nothing board 3 _ _ _ E)
    as (Hc & [(H0 & _)|(_ & Hp & Hr)]); [discriminate|].
  repeat split; assumption.
Defined.

(** X9: [irq_bypass_register_consumer] registers all or nothing.  It never
    touches the producer list.  When it returns 0 the consumer is linked at
    the head of the list, it has a token and both mandatory call-backs, and
    one module reference was taken; when it returns anything else the list
    and the reference count are as before. *)
Theorem register_consumer_all_or_nothing (mem : memory) (c : ptr)
    (s : state) (r : Z) (s' : state) :
  irq_bypass_register_consumer mem c s = Some (r, s') ->
  producers s' = producers s /\
  ((r = 0 /\ consumers s' = c :: consumers s /\
    module_refcnt s' = module_refcnt s + 1 /\ cons_valid mem c)
   \/
   (r <> 0 /\ consumers s' = consumers s /\
    module_refcnt s' = module_refcnt s)).
Proof.
  rewrite register_consumer_eq.
  destruct (_ || _ || _) eqn:V.
  { intros H; injection H as <- <-. split; [reflexivity|]. right.
    repeat split; discriminate. }
  apply cons_valid_test in V.
  destruct (negb (module_live s)).
  { intros H; injection H as <- <-. split; [reflexivity|]. right.
    repeat split; discriminate. }
  destruct (existsb _ (consumers s)).
  { intros H; injection H as <- <-. split; [reflexivity|]. right.
    repeat split; discriminate. }
  destruct (find _ (producers s)) as [p|].
  - destruct (connect_log mem p c (log s)) as [[r0 evs]|]; [|discriminate].
    destruct (Z.eqb_spec r0 0) as [->|Hr]; cbn [negb];
      intros H; injection H as <- <-; (split; [reflexivity|]).
    + left. simpl. repeat split; auto; apply V.
    + right. simpl. repeat split; auto. lia.
  - intros H; injection H as <- <-. split; [reflexivity|]. left.
    simpl. repeat split; auto; apply V.
Qed.

Lemma register_consumer_all_or_nothing_witness :
  exists s',
    irq_bypass_register_consumer board 11
      (after (init true) [1] [] 1 []) = Some (0, s') /\
    producers s' = [1] /\ consumers s' = [11] /\ module_refcnt s' = 2.
Proof.
  eassert (E : irq_bypass_register_consumer board 11
                 (after (init true) [1] [] 1 []) = Some (0, _))
    by (vm_compute; reflexivity).
  eexists. split; [exact E|].
  destruct (register_consumer_all_or_nothing board 11 _ _ _ E)
    as (Hp & [(_ & Hc & Hr & _)|(H0 & _)]); [|now elim H0].
  repeat split; assumption.
Defined.

Lemma existsb_none {A : Type} (f : A -> bool) (l : list A) :
  (forall x, In x l -> f x = false) -> existsb f l = false.
Proof.
  intros H. destruct (existsb f l) eqn:E; [|reflexivity].
  apply existsb_exists in E. destruct E as (x & Hin & Hx).
  rewrite (H x Hin) in Hx. discriminate.
Qed.

Lemma find_none_all {A : Type} (f : A -> bool) (l : list A) :
  (forall x, In x l -> f x = false) -> find f l = None.
Proof.
  intros H. destruct (find f l) as [x|] eqn:E; [|reflexivity].
  apply find_some in E. destruct E as [Hin Hx].
  rewrite (H x Hin) in Hx. discriminate.
Qed.

(** In a list with one object per key, the search for a key finds the
    object that has it. *)
Lemma find_the_one {A : Type} (key : A -> ptr) (k : ptr) (l : list A) (x : A) :
  NoDup (map key l) -> In x l -> key x = k ->
  find (fun y => key y =? k) l = Some x.
Proof.
  intros Hnd Hin Hk.
  destruct (find_is_some (fun y => key y =? k) l x Hin) as (y & F).
  { now apply Z.eqb_eq. }
  rewrite F. f_equal. apply find_some in F. destruct F as [Hy E].
  apply Z.eqb_eq in E. apply (NoDup_map_eq key l y x Hnd Hy Hin). congruence.
Qed.

Lemma disconnects_app (a b : trace) :
  disconnects (a ++ b) = disconnects a ++ disconnects b.
Proof.
  induction a as [|e a IH]; simpl; [reflexivity|].
  destruct e; simpl; now rewrite ?IH.
Qed.

Lemma disconnects_stops (mem : memory) (p c : ptr) :
  disconnects (stops mem p c) = [].
Proof.
  unfold stops.
  destruct (Prod.stop (producer_at mem p)), (Cons.stop (consumer_at mem c));
    reflexivity.
Qed.

Lemma disconnects_starts (mem : memory) (p c : ptr) :
  disconnects (starts mem p c) = [].
Proof.
  unfold starts.
  destruct (Cons.start (consumer_at mem c)), (Prod.start (producer_at mem p));
    reflexivity.
Qed.

Lemma connects_starts (mem : memory) (p c : ptr) :
  connects (starts mem p c) = [].
Proof.
  unfold starts.
  destruct (Cons.start (consumer_at mem c)), (Prod.start (producer_at mem p));
    reflexivity.
Qed.

Lemma connect_log_disconnects (mem : memory) (p c : ptr) (l : trace)
    (r : Z) (evs : trace) :
  connect_log mem p c l = Some (r, evs) -> disconnects evs = [].
Proof.
  intros H. apply connect_log_shape in H. cbv zeta in H.
  destruct H as [(_ & -> & _)|(mid & -> & Hmid & _)]; simpl.
  - now rewrite disconnects_app, disconnects_stops.
  - rewrite !disconnects_app, disconnects_stops. simpl.
    rewrite disconnects_app, disconnects_starts.
    unfold rollback.
    destruct Hmid as [-> | ->];
      destruct (negb (r =? 0) && Prod.del_consumer (producer_at mem p));
      reflexivity.
Qed.

Lemma disconnected_connects (mem : memory) (p c : ptr) :
  connects (disconnected mem p c) = [] /\
  disconnects (disconnected mem p c) = [(p, c)].
Proof.
  unfold disconnected. simpl.
  rewrite connects_app, disconnects_app, connects_stops, disconnects_stops.
  simpl. rewrite connects_app, disconnects_app, connects_starts,
    disconnects_starts.
  destruct (Prod.del_consumer (producer_at mem p)); split; reflexivity.
Qed.

(** X10: a producer with a token, in a live module, when no producer and no
    consumer on the lists has its token: it is linked at the head of the
    producer list, one reference is taken, the result is 0 and no call-back
    is made. *)
Theorem register_producer_without_match (mem : memory) (p : ptr) (s : state) :
  prod_token mem p <> NULL ->
  module_live s = true ->
  (forall tmp, In tmp (producers s) -> prod_token mem tmp <> prod_token mem p) ->
  (forall c, In c (consumers s) -> cons_token mem c <> prod_token mem p) ->
  irq_bypass_register_producer mem p s
  = Some (0, after s (p :: producers s) (consumers s) 1 []).
Proof.
  unfold prod_token, cons_token. intros Htok L Hp Hc.
  rewrite register_producer_eq, L.
  destruct (Z.eqb_spec (Prod.token (producer_at mem p)) NULL);
    [contradiction|]. cbn [negb].
  rewrite existsb_none by (intros x Hx; apply Z.eqb_neq; auto).
  rewrite find_none_all by (intros x Hx; apply Z.eqb_neq; auto).
  reflexivity.
Qed.

(** Producer 3, with the token 9, joins producer 1 and consumer 11. *)
Lemma register_producer_without_match_witness :
  irq_bypass_register_producer board 3 paired
  = Some (0, after paired [3; 1] [11] 1 []).
Proof.
  apply (register_producer_without_match board 3 paired).
  - discriminate.
  - reflexivity.
  - simpl. intros tmp [<-|[]]. discriminate.
  - simpl. intros c [<-|[]]. discriminate.
Defined.

(** X11: a consumer with a token and both mandatory call-backs, in a live
    module, when it is not on the consumer list and no consumer and no
    producer on the lists has its token: it is linked at the head of the
    consumer list, one reference is taken, the result is 0 and no call-back
    is made. *)
Theorem register_consumer_without_match (mem : memory) (c : ptr) (s : state) :
  cons_valid mem c ->
  module_live s = true ->
  (forall tmp, In tmp (consumers s) ->
               cons_token mem tmp <> cons_token mem c /\ tmp <> c) ->
  (forall p, In p (producers s) -> prod_token mem p <> cons_token mem c) ->
  irq_bypass_register_consumer mem c s
  = Some (0, after s (producers s) (c :: consumers s) 1 []).
Proof.
  unfold prod_token, cons_token. intros Hval L Hc Hp.
  rewrite register_consumer_eq, (cons_valid_passes mem c Hval), L. cbn [negb].
  rewrite existsb_none.
  - rewrite find_none_all by (intros x Hx; apply Z.eqb_neq; auto).
    reflexivity.
  - intros x Hx. destruct (Hc x Hx) as [Ht Hi].
    apply orb_false_iff. split; now apply Z.eqb_neq.
Qed.

(** Consumer 13, with the token 9, joins producer 1 and consumer 11. *)
Lemma register_consumer_without_match_witness :
  irq_bypass_register_consumer board 13 paired
  = Some (0, after paired [1] [13; 11] 1 []).
Proof.
  apply (register_consumer_without_match board 13 paired).
  - repeat split; discriminate.
  - reflexivity.
  - simpl. intros tmp [<-|[]]. split; discriminate.
  - simpl. intros p [<-|[]]. discriminate.
Defined.

(** X12: in a registry the entry points led to, registering a producer whose
    token no producer on the list has, while a consumer with that token is
    on the consumer list: [__connect] is entered once, with the new producer
    and that consumer, [__disconnect] is not, and the result of the call is
    the first non-zero result among the add steps of that connect, 0 when
    there is none. *)
Theorem register_producer_connects_match (mem : memory) (s : state) (p c : ptr) :
  reachable mem s ->
  prod_token mem p <> NULL ->
  (forall tmp, In tmp (producers s) -> prod_token mem tmp <> prod_token mem p) ->
  In c (consumers s) ->
  cons_token mem c = prod_token mem p ->
  exists r s',
    irq_bypass_register_producer mem p s = Some (r, s') /\
    connects (new_events s s') = [(p, c)] /\
    disconnects (new_events s s') = [] /\
    r = first_error (new_events s s').
Proof.
  intros Hr Htok Hnew Hin Hc. apply reachable_ok in Hr.
  destruct Hr as [_ Hct _ Hval Hlive].
  rewrite Forall_forall in Hval. destruct (Hval c Hin) as (_ & Ha & _).
  rewrite register_producer_eq.
  unfold prod_token in Htok, Hnew.
  destruct (Z.eqb_spec (Prod.token (producer_at mem p)) NULL);
    [contradiction|].
  rewrite Hlive by (right; intros E; now rewrite E in Hin). cbn [negb].
  rewrite existsb_none by (intros x Hx; apply Z.eqb_neq; auto).
  assert (F : find (fun c0 => Cons.token (consumer_at mem c0)
                              =? Prod.token (producer_at mem p))
                   (consumers s) = Some c)
    by exact (find_the_one (cons_token mem) _ _ c Hct Hin Hc).
  rewrite F.
  destruct (connect_log_total mem p c (log s) Ha) as (r & evs & E).
  rewrite E.
  destruct (Z.eqb_spec r 0) as [->|Hr]; cbn [negb];
    eexists; eexists; (split; [reflexivity|]);
    rewrite new_events_after;
    (split; [now apply (connect_log_connects mem _ _ _ _ _ E)|]);
    (split; [now apply (connect_log_disconnects mem _ _ _ _ _ E)|]);
    now apply (connect_log_first_error mem _ _ _ _ _ E).
Qed.

(** Producer 1 comes to consumer 11, which is registered already. *)
Lemma register_producer_connects_match_witness :
  exists s',
    irq_bypass_register_producer board 1 (after (init true) [] [11] 1 [])
    = Some (0, s') /\
    connects (new_events (after (init true) [] [11] 1 []) s') = [(1, 11)].
Proof.
  destruct (register_producer_connects_match board
              (after (init true) [] [11] 1 []) 1 11)
    as (r & s' & E & Hc & _).
  - exists true, [register_consumer 11]. vm_compute. reflexivity.
  - discriminate.
  - intros tmp [].
  - simpl. now left.
  - reflexivity.
  - pose proof E as E'. vm_compute in E'. injection E' as <- <-.
    eexists. split; [exact E|exact Hc].
Defined.

(** X13: in a registry the entry points led to, registering a consumer that
    passes the first test and is no duplicate, while a producer with its
    token is on the producer list: [__connect] is entered once, with that
    producer and the new consumer, [__disconnect] is not, and the result of
    the call is the first non-zero result among the add steps of that
    connect, 0 when there is none. *)
Theorem register_consumer_connects_match (mem : memory) (s : state) (p c : ptr) :
  reachable mem s ->
  cons_valid mem c ->
  (forall tmp, In tmp (consumers s) ->
               cons_token mem tmp <> cons_token mem c /\ tmp <> c) ->
  In p (producers s) ->
  prod_token mem p = cons_token mem c ->
  exists r s',
    irq_bypass_register_consumer mem c s = Some (r, s') /\
    connects (new_events s s') = [(p, c)] /\
    disconnects (new_events s s') = [] /\
    r = first_error (new_events s s').
Proof.
  intros Hr Hval Hnew Hin Hp. apply reachable_ok in Hr.
  destruct Hr as [Hpt _ _ _ Hlive].
  rewrite register_consumer_eq, (cons_valid_passes mem c Hval).
  rewrite Hlive by (left; intros E; now rewrite E in Hin). cbn [negb].
  rewrite existsb_none.
  2:{ intros x Hx. destruct (Hnew x Hx) as [Ht Hi].
      apply orb_false_iff. split; now apply Z.eqb_neq. }
  assert (F : find (fun p0 => Prod.token (producer_at mem p0)
                              =? Cons.token (consumer_at mem c))
                   (producers s) = Some p)
    by exact (find_the_one (prod_token mem) _ _ p Hpt Hin Hp).
  rewrite F.
  destruct Hval as (_ & Ha & _).
  destruct (connect_log_total mem p c (log s) Ha) as (r & evs & E).
  rewrite E.
  destruct (Z.eqb_spec r 0) as [->|Hr]; cbn [negb];
    eexists; eexists; (split; [reflexivity|]);
    rewrite new_events_after;
    (split; [now apply (connect_log_connects mem _ _ _ _ _ E)|]);
    (split; [now apply (connect_log_disconnects mem _ _ _ _ _ E)|]);
    now apply (connect_log_first_error mem _ _ _ _ _ E).
Qed.

(** Consumer 12 comes to producer 1 and refuses it. *)
Lemma register_consumer_connects_match_witness :
  exists s',
    irq_bypass_register_consumer board 12 (after (init true) [1] [] 1 [])
    = Some (-12, s') /\
    connects (new_events (after (init true) [1] [] 1 []) s') = [(1, 12)].
Proof.
  destruct (register_consumer_connects_match board
              (after (init true) [1] [] 1 []) 1 12)
    as (r & s' & E & Hc & _).
  - exists true, [register_producer 1]. vm_compute. reflexivity.
  - repeat split; discriminate.
  - intros tmp [].
  - simpl. now left.
  - reflexivity.
  - pose proof E as E'. vm_compute in E'. injection E' as <- <-.
    eexists. split; [exact E|exact Hc].
Defined.

(** ** Unregistering what is registered *)

Section Linked.

Variable mem : memory.

(** The outcome of [irq_bypass_unregister_producer] on a producer that is on
    the list. *)
Lemma unregister_producer_linked (s : state) (p : ptr) :
  registry_ok mem s -> In p (producers s) ->
  exists evs,
    irq_bypass_unregister_producer mem p s
    = Some (tt, after s (list_del p (producers s)) (consumers s) (-1) evs) /\
    (forall c, In c (consumers s) -> cons_token mem c = prod_token mem p ->
               evs = disconnected mem p c) /\
    ((forall c, In c (consumers s) -> cons_token mem c <> prod_token mem p) ->
     evs = []).
Proof.
  intros [_ Hct Hset Hval Hlive] Hin.
  rewrite Forall_forall in Hset, Hval. specialize (Hset p Hin).
  unfold prod_token, cons_token in *.
  rewrite unregister_producer_eq.
  destruct (Z.eqb_spec (Prod.token (producer_at mem p)) NULL);
    [contradiction|].
  rewrite Hlive by (left; intros E; now rewrite E in Hin). cbn [negb].
  destruct (find_is_some
              (fun tmp => Prod.token (producer_at mem tmp)
                          =? Prod.token (producer_at mem p))
              (producers s) p Hin (Z.eqb_refl _)) as (tmp & ->).
  destruct (find _ (consumers s)) as [c0|] eqn:F.
  - apply find_some in F. destruct F as [Hin0 E0]. apply Z.eqb_eq in E0.
    destruct (Hval c0 Hin0) as (_ & _ & ->).
    eexists. split; [reflexivity|]. split.
    + intros c Hc Ec. f_equal.
      apply (NoDup_map_eq _ _ _ _ Hct Hin0 Hc). unfold cons_token. congruence.
    + intros Hno. now elim (Hno c0 Hin0).
  - exists []. split; [reflexivity|]. split; [|reflexivity].
    intros c Hc Ec. apply (find_none _ _ F) in Hc.
    apply Z.eqb_neq in Hc. contradiction.
Qed.

(** The outcome of [irq_bypass_unregister_consumer] on a consumer that is on
    the list. *)
Lemma unregister_consumer_linked (s : state) (c : ptr) :
  registry_ok mem s -> In c (consumers s) ->
  exists evs,
    irq_bypass_unregister_consumer mem c s
    = Some (tt, after s (producers s) (list_del c (consumers s)) (-1) evs) /\
    (forall p, In p (producers s) -> prod_token mem p = cons_token mem c ->
               evs = disconnected mem p c) /\
    ((forall p, In p (producers s) -> prod_token mem p <> cons_token mem c) ->
     evs = []).
Proof.
  intros [Hpt _ _ Hval Hlive] Hin.
  rewrite Forall_forall in Hval. destruct (Hval c Hin) as (Htok & _ & Hdel).
  unfold prod_token, cons_token in *.
  rewrite unregister_consumer_eq.
  destruct (Z.eqb_spec (Cons.token (consumer_at mem c)) NULL);
    [contradiction|].
  rewrite Hlive by (right; intros E; now rewrite E in Hin). cbn [negb].
  destruct (find_is_some (fun tmp => tmp =? c) (consumers s) c Hin
              (Z.eqb_refl _)) as (tmp & ->).
  rewrite Hdel.
  destruct (find _ (producers s)) as [p0|] eqn:F.
  - apply find_some in F. destruct F as [Hin0 E0]. apply Z.eqb_eq in E0.
    eexists. split; [reflexivity|]. split.
    + intros p Hp Ep. f_equal.
      apply (NoDup_map_eq _ _ _ _ Hpt Hin0 Hp). unfold prod_token. congruence.
    + intros Hno. now elim (Hno p0 Hin0).
  - exists []. split; [reflexivity|]. split; [|reflexivity].
    intros p Hp Ep. apply (find_none _ _ F) in Hp.
    apply Z.eqb_neq in Hp. contradiction.
Qed.

End Linked.

(** X14: in a registry the entry points led to, unregistering a producer
    that is on the list takes it, and nothing else, off the producer list,
    leaves the consumer list alone and gives back one module reference.  It
    is disconnected from the consumer with its token when there is one on the
    list, and then the log of the call is that of the disconnect; without
    such a consumer no call-back is made. *)
Theorem unregister_producer_registered (mem : memory) (s : state) (p : ptr) :
  reachable mem s ->
  In p (producers s) ->
  exists s',
    irq_bypass_unregister_producer mem p s = Some (tt, s') /\
    (forall q, In q (producers s') <-> In q (producers s) /\ q <> p) /\
    consumers s' = consumers s /\
    module_refcnt s' = module_refcnt s - 1 /\
    (forall c, In c (consumers s) -> cons_token mem c = prod_token mem p ->
               new_events s s' = disconnected mem p c) /\
    ((forall c, In c (consumers s) -> cons_token mem c <> prod_token mem p) ->
     new_events s s' = []).
Proof.
  intros Hr Hin. apply reachable_ok in Hr.
  destruct (unregister_producer_linked mem s p Hr Hin) as (evs & E & H1 & H2).
  eexists. split; [exact E|]. rewrite new_events_after. simpl.
  split; [intros q; apply list_del_In|]. split; [reflexivity|].
  split; [lia|]. split; assumption.
Qed.

(** Producer 1 leaves consumer 11 behind. *)
Lemma unregister_producer_registered_witness :
  exists s',
    irq_bypass_unregister_producer board 1 paired = Some (tt, s') /\
    producers s' = [] /\ consumers s' = [11] /\ module_refcnt s' = 1 /\
    new_events paired s' = disconnected board 1 11.
Proof.
  destruct (unregister_producer_registered board paired 1)
    as (s' & E & _ & Hc & Hn & Hd & _).
  - exists true, [register_producer 1; register_consumer 11].
    vm_compute. reflexivity.
  - simpl. now left.
  - specialize (Hd 11 (or_introl eq_refl) eq_refl).
    pose proof E as E'. vm_compute in E'. injection E' as <-.
    eexists. split; [exact E|]. repeat split; assumption.
Defined.

(** X15: in a registry the entry points led to, unregistering a consumer
    that is on the list takes it, and nothing else, off the consumer list,
    leaves the producer list alone and gives back one module reference.  It
    is disconnected from the producer with its token when there is one on the
    list, and then the log of the call is that of the disconnect; without
    such a producer no call-back is made. *)
Theorem unregister_consumer_registered (mem : memory) (s : state) (c : ptr) :
  reachable mem s ->
  In c (consumers s) ->
  exists s',
    irq_bypass_unregister_consumer mem c s = Some (tt, s') /\
    (forall q, In q (consumers s') <-> In q (consumers s) /\ q <> c) /\
    producers s' = producers s /\
    module_refcnt s' = module_refcnt s - 1 /\
    (forall p, In p (producers s) -> prod_token mem p = cons_token mem c ->
               new_events s s' = disconnected mem p c) /\
    ((forall p, In p (producers s) -> prod_token mem p <> cons_token mem c) ->
     new_events s s' = []).
Proof.
  intros Hr Hin. apply reachable_ok in Hr.
  destruct (unregister_consumer_linked mem s c Hr Hin) as (evs & E & H1 & H2).
  eexists. split; [exact E|]. rewrite new_events_after. simpl.
  split; [intros q; apply list_del_In|]. split; [reflexivity|].
  split; [lia|]. split; assumption.
Qed.

(** Consumer 11 leaves producer 1 behind. *)
Lemma unregister_consumer_registered_witness :
  exists s',
    irq_bypass_unregister_consumer board 11 paired = Some (tt, s') /\
    producers s' = [1] /\ consumers s' = [] /\ module_refcnt s' = 1 /\
    new_events paired s' = disconnected board 1 11.
Proof.
  destruct (unregister_consumer_registered board paired 11)
    as (s' & E & _ & Hp & Hn & Hd & _).
  - exists true, [register_producer 1; register_consumer 11].
    vm_compute. reflexivity.
  - simpl. now left.
  - specialize (Hd 1 (or_introl eq_refl) eq_refl).
    pose proof E as E'. vm_compute in E'. injection E' as <-.
    eexists. split; [exact E|]. repeat split; assumption.
Defined.

(** X16: in a registry the entry points led to, unregistering an object
    that is on its list a second time does nothing: after the first call the
    second returns with the state as it is. *)
Theorem unregister_twice (mem : memory) (s : state) :
  reachable mem s ->
  (forall p, In p (producers s) ->
     exists s', irq_bypass_unregister_producer mem p s = Some (tt, s') /\
                irq_bypass_unregister_producer mem p s' = Some (tt, s'))
  /\
  (forall c, In c (consumers s) ->
     exists s', irq_bypass_unregister_consumer mem c s = Some (tt, s') /\
                irq_bypass_unregister_consumer mem c s' = Some (tt, s')).
Proof.
  intros Hr. apply reachable_ok in Hr. split.
  - intros p Hin.
    destruct (unregister_producer_linked mem s p Hr Hin) as (evs & E & _).
    eexists. split; [exact E|].
    apply unregister_producer_unmatched. simpl. intros tmp Htmp Htok.
    apply list_del_In in Htmp. destruct Htmp as [Htmp Hne]. apply Hne.
    apply (NoDup_map_eq _ _ _ _ (ok_prod_tokens _ _ Hr) Htmp Hin Htok).
  - intros c Hin.
    destruct (unregister_consumer_linked mem s c Hr Hin) as (evs & E & _).
    eexists. split; [exact E|].
    apply unregister_consumer_unlinked. simpl. intros Hc.
    apply list_del_In in Hc. now destruct Hc.
Qed.

Lemma unregister_twice_witness :
  exists s',
    irq_bypass_unregister_producer board 1 paired = Some (tt, s') /\
    irq_bypass_unregister_producer board 1 s' = Some (tt, s').
Proof.
  destruct (unregister_twice board paired) as [Hp _].
  - exists true, [register_producer 1; register_consumer 11].
    vm_compute. reflexivity.
  - apply (Hp 1). simpl. now left.
Defined.

(** ** Register, then unregister *)

Lemma new_events_after_after (s : state) (ps cs ps' cs' : list ptr)
    (dn dn' : Z) (evs evs' : trace) :
  new_events s (after (after s ps cs dn evs) ps' cs' dn' evs') = evs ++ evs'.
Proof.
  unfold new_events. simpl. rewrite <- app_assoc. apply skipn_length_app.
Qed.

Lemma list_del_head (node : ptr) (head : list ptr) :
  ~ In node head -> list_del node (list_add node head) = head.
Proof.
  intros H. unfold list_del, list_add. simpl. rewrite Z.eqb_refl. simpl.
  now apply list_del_unlinked.
Qed.

Section RoundTrip.

Variable mem : memory.

(** A registration of a producer that returned 0, taken apart. *)
Lemma register_producer_linked (s : state) (p : ptr) (s1 : state) :
  irq_bypass_register_producer mem p s = Some (0, s1) ->
  exists evs,
    s1 = after s (p :: producers s) (consumers s) 1 evs /\
    ~ In p (producers s) /\
    ((evs = [] /\
      forall c, In c (consumers s) -> cons_token mem c <> prod_token mem p)
     \/
     (exists c, In c (consumers s) /\ cons_token mem c = prod_token mem p /\
                connect_log mem p c (log s) = Some (0, evs))).
Proof.
  rewrite register_producer_eq. unfold prod_token, cons_token.
  destruct (Prod.token (producer_at mem p) =? NULL); [discriminate|].
  destruct (negb (module_live s)); [discriminate|].
  destruct (existsb _ (producers s)) eqn:D; [discriminate|].
  assert (Hp : ~ In p (producers s)).
  { intros Hin. apply (existsb_false _ _ D) in Hin.
    rewrite Z.eqb_refl in Hin. discriminate. }
  destruct (find _ (consumers s)) as [c|] eqn:F.
  - destruct (connect_log mem p c (log s)) as [[r evs]|] eqn:E; [|discriminate].
    destruct (Z.eqb_spec r 0) as [->|]; cbn [negb].
    + intros H; injection H as <-. exists evs. split; [reflexivity|].
      split; [assumption|]. right. exists c.
      apply find_some in F. destruct F as [Hin Ht]. apply Z.eqb_eq in Ht. auto.
    + intros H; injection H as -> _. contradiction.
  - intros H; injection H as <-. exists []. split; [reflexivity|].
    split; [assumption|]. left. split; [reflexivity|].
    intros c Hc. apply (find_none _ _ F) in Hc. now apply Z.eqb_neq.
Qed.

(** A registration of a consumer that returned 0, taken apart. *)
Lemma register_consumer_linked (s : state) (c : ptr) (s1 : state) :
  irq_bypass_register_consumer mem c s = Some (0, s1) ->
  exists evs,
    s1 = after s (producers s) (c :: consumers s) 1 evs /\
    ~ In c (consumers s) /\
    ((evs = [] /\
      forall p, In p (producers s) -> prod_token mem p <> cons_token mem c)
     \/
     (exists p, In p (producers s) /\ prod_token mem p = cons_token mem c /\
                connect_log mem p c (log s) = Some (0, evs))).
Proof.
  rewrite register_consumer_eq. unfold prod_token, cons_token.
  destruct (_ || _ || _); [discriminate|].
  destruct (negb (module_live s)); [discriminate|].
  destruct (existsb _ (consumers s)) eqn:D; [discriminate|].
  assert (Hc : ~ In c (consumers s)).
  { intros Hin. apply (existsb_false _ _ D) in Hin.
    apply orb_false_iff in Hin. destruct Hin as [_ Hin].
    rewrite Z.eqb_refl in Hin. discriminate. }
  destruct (find _ (producers s)) as [p|] eqn:F.
  - destruct (connect_log mem p c (log s)) as [[r evs]|] eqn:E; [|discriminate].
    destruct (Z.eqb_spec r 0) as [->|]; cbn [negb].
    + intros H; injection H as <-. exists evs. split; [reflexivity|].
      split; [assumption|]. right. exists p.
      apply find_some in F. destruct F as [Hin Ht]. apply Z.eqb_eq in Ht. auto.
    + intros H; injection H as -> _. contradiction.
  - intros H; injection H as <-. exists []. split; [reflexivity|].
    split; [assumption|]. left. split; [reflexivity|].
    intros p Hp. apply (find_none _ _ F) in Hp. now apply Z.eqb_neq.
Qed.

End RoundTrip.

(** X17: in a registry the entry points led to, a producer that was
    registered with success and is unregistered right away leaves both lists
    and the module reference count as they were before the two calls; and
    the two calls together entered [__disconnect] with the very pairs they
    entered [__connect] with. *)
Theorem register_unregister_producer (mem : memory) (s : state) (p : ptr)
    (s1 : state) :
  reachable mem s ->
  irq_bypass_register_producer mem p s = Some (0, s1) ->
  exists s2,
    irq_bypass_unregister_producer mem p s1 = Some (tt, s2) /\
    producers s2 = producers s /\
    consumers s2 = consumers s /\
    module_refcnt s2 = module_refcnt s /\
    connects (new_events s s2) = disconnects (new_events s s2).
Proof.
  intros Hr E. apply reachable_ok in Hr.
  assert (Hok1 : registry_ok mem s1).
  { apply (api_ok mem (register_producer p) s s1 Hr).
    unfold api, bind. now rewrite E. }
  apply register_producer_linked in E.
  destruct E as (evs & -> & Hp & Hevs).
  destruct (unregister_producer_linked mem _ p Hok1 (or_introl eq_refl))
    as (evs' & E' & Hm & Hn).
  eexists. split; [exact E'|]. simpl in *.
  rewrite new_events_after_after.
  split; [now apply (list_del_head p)|]. split; [reflexivity|].
  split; [lia|].
  rewrite connects_app, disconnects_app.
  destruct Hevs as [(-> & Hno)|(c & Hc & Htok & El)].
  - rewrite (Hn Hno). reflexivity.
  - rewrite (Hm c Hc Htok).
    rewrite (connect_log_connects mem _ _ _ _ _ El),
      (connect_log_disconnects mem _ _ _ _ _ El).
    destruct (disconnected_connects mem p c) as [-> ->]. reflexivity.
Qed.

(** Producer 1 comes to the registered consumer 11 and goes. *)
Lemma register_unregister_producer_witness :
  exists s1 s2,
    irq_bypass_register_producer board 1 (after (init true) [] [11] 1 [])
    = Some (0, s1) /\
    irq_bypass_unregister_producer board 1 s1 = Some (tt, s2) /\
    producers s2 = [] /\ consumers s2 = [11] /\ module_refcnt s2 = 1 /\
    connects (new_events (after (init true) [] [11] 1 []) s2) = [(1, 11)] /\
    disconnects (new_events (after (init true) [] [11] 1 []) s2) = [(1, 11)].
Proof.
  eassert (E1 : irq_bypass_register_producer board 1
                  (after (init true) [] [11] 1 []) = Some (0, _))
    by (vm_compute; reflexivity).
  destruct (register_unregister_producer board _ 1 _
              (ex_intro _ true
                 (ex_intro _ [register_consumer 11] eq_refl)) E1)
    as (s2 & E & Hp & Hc & Hn & Hw).
  pose proof E as E'. vm_compute in E'. injection E' as <-.
  eexists. eexists. split; [exact E1|]. split; [exact E|].
  split; [exact Hp|]. split; [exact Hc|]. split; [exact Hn|].
  split; vm_compute; reflexivity.
Defined.

(** X18: in a registry the entry points led to, a consumer that was
    registered with success and is unregistered right away leaves both lists
    and the module reference count as they were before the two calls; and
    the two calls together entered [__disconnect] with the very pairs they
    entered [__connect] with. *)
Theorem register_unregister_consumer (mem : memory) (s : state) (c : ptr)
    (s1 : state) :
  reachable mem s ->
  irq_bypass_register_consumer mem c s = Some (0, s1) ->
  exists s2,
    irq_bypass_unregister_consumer mem c s1 = Some (tt, s2) /\
    producers s2 = producers s /\
    consumers s2 = consumers s /\
    module_refcnt s2 = module_refcnt s /\
    connects (new_events s s2) = disconnects (new_events s s2).
Proof.
  intros Hr E. apply reachable_ok in Hr.
  assert (Hok1 : registry_ok mem s1).
  { apply (api_ok mem (register_consumer c) s s1 Hr).
    unfold api, bind. now rewrite E. }
  apply register_consumer_linked in E.
  destruct E as (evs & -> & Hc & Hevs).
  destruct (unregister_consumer_linked mem _ c Hok1 (or_introl eq_refl))
    as (evs' & E' & Hm & Hn).
  eexists. split; [exact E'|]. simpl in *.
  rewrite new_events_after_after.
  split; [reflexivity|]. split; [now apply (list_del_head c)|].
  split; [lia|].
  rewrite connects_app, disconnects_app.
  destruct Hevs as [(-> & Hno)|(p & Hp & Htok & El)].
  - rewrite (Hn Hno). reflexivity.
  - rewrite (Hm p Hp Htok).
    rewrite (connect_log_connects mem _ _ _ _ _ El),
      (connect_log_disconnects mem _ _ _ _ _ El).
    destruct (disconnected_connects mem p c) as [-> ->]. reflexivity.
Qed.

(** Consumer 11 comes to the registered producer 1 and goes. *)
Lemma register_unregister_consumer_witness :
  exists s1 s2,
    irq_bypass_register_consumer board 11 (after (init true) [1] [] 1 [])
    = Some (0, s1) /\
    irq_bypass_unregister_consumer board 11 s1 = Some (tt, s2) /\
    producers s2 = [1] /\ consumers s2 = [] /\ module_refcnt s2 = 1 /\
    connects (new_events (after (init true) [1] [] 1 []) s2) = [(1, 11)] /\
    disconnects (new_events (after (init true) [1] [] 1 []) s2) = [(1, 11)].
Proof.
  eassert (E1 : irq_bypass_register_consumer board 11
                  (after (init true) [1] [] 1 []) = Some (0, _))
    by (vm_compute; reflexivity).
  destruct (register_unregister_consumer board _ 11 _
              (ex_intro _ true
                 (ex_intro _ [register_producer 1] eq_refl)) E1)
    as (s2 & E & Hp & Hc & Hn & Hw).
  pose proof E as E'. vm_compute in E'. injection E' as <-.
  eexists. eexists. split; [exact E1|]. split; [exact E|].
  split; [exact Hp|]. split; [exact Hc|]. split; [exact Hn|].
  split; vm_compute; reflexivity.
Defined.

(** ** What a call may do to the wiring *)

Section Wiring.

Variable mem : memory.

(** One call enters [__connect] or [__disconnect] at most once, the former
    only when it registers and the latter only when it unregisters, and the
    pair is the one the call works on. *)
Lemma api_protocol (a : api_call) (s s' : state) :
  api mem a s = Some (tt, s') ->
  (connects (new_events s s') = [] /\ disconnects (new_events s s') = [])
  \/
  (exists p c,
      works_on mem a s p c /\
      ((is_register a = true /\
        connects (new_events s s') = [(p, c)] /\
        disconnects (new_events s s') = [])
       \/
       (is_register a = false /\
        connects (new_events s s') = [] /\
        disconnects (new_events s s') = [(p, c)]))).
Proof.
  assert (Hnone : forall s0, connects (new_events s0 s0) = [] /\
                             disconnects (new_events s0 s0) = []).
  { intros s0. rewrite new_events_self. auto. }
  assert (Hquiet : forall ps cs dn,
             connects (new_events s (after s ps cs dn [])) = [] /\
             disconnects (new_events s (after s ps cs dn [])) = []).
  { intros. rewrite new_events_after. auto. }
  destruct a as [q|q|q|q]; unfold api, bind, ret, works_on.
  - rewrite register_producer_eq.
    destruct (Prod.token (producer_at mem q) =? NULL);
      [intros H; injection H as <-; auto|].
    destruct (negb (module_live s)); [intros H; injection H as <-; auto|].
    destruct (existsb _ (producers s)); [intros H; injection H as <-; auto|].
    destruct (find _ (consumers s)) as [c|] eqn:F;
      [|intros H; injection H as <-; auto].
    apply find_some in F. destruct F as [Hin Ht]. apply Z.eqb_eq in Ht.
    destruct (connect_log mem q c (log s)) as [[r evs]|] eqn:E; [|discriminate].
    assert (Hp : connects evs = [(q, c)])
      by apply (connect_log_connects mem _ _ _ _ _ E).
    assert (Hd : disconnects evs = [])
      by apply (connect_log_disconnects mem _ _ _ _ _ E).
    destruct (negb (r =? 0)); intros H; injection H as <-;
      rewrite new_events_after; right; exists q, c;
      (split; [split; [now symmetry|auto]|left; auto]).
  - rewrite unregister_producer_eq.
    destruct (Prod.token (producer_at mem q) =? NULL);
      [intros H; injection H as <-; auto|].
    destruct (negb (module_live s)); [intros H; injection H as <-; auto|].
    destruct (find _ (producers s)); [|intros H; injection H as <-; auto].
    destruct (find _ (consumers s)) as [c|] eqn:F;
      [|intros H; injection H as <-; auto].
    apply find_some in F. destruct F as [Hin Ht]. apply Z.eqb_eq in Ht.
    destruct (Cons.del_producer (consumer_at mem c)); [|discriminate].
    intros H; injection H as <-. rewrite new_events_after.
    destruct (disconnected_connects mem q c) as [Hp Hd].
    right. exists q, c. split; [split; [now symmetry|auto]|right; auto].
  - rewrite register_consumer_eq.
    destruct (_ || _ || _); [intros H; injection H as <-; auto|].
    destruct (negb (module_live s)); [intros H; injection H as <-; auto|].
    destruct (existsb _ (consumers s)); [intros H; injection H as <-; auto|].
    destruct (find _ (producers s)) as [p|] eqn:F;
      [|intros H; injection H as <-; auto].
    apply find_some in F. destruct F as [Hin Ht]. apply Z.eqb_eq in Ht.
    destruct (connect_log mem p q (log s)) as [[r evs]|] eqn:E; [|discriminate].
    assert (Hp : connects evs = [(p, q)])
      by apply (connect_log_connects mem _ _ _ _ _ E).
    assert (Hd : disconnects evs = [])
      by apply (connect_log_disconnects mem _ _ _ _ _ E).
    destruct (negb (r =? 0)); intros H; injection H as <-;
      rewrite new_events_after; right; exists p, q;
      (split; [split; auto|left; auto]).
  - rewrite unregister_consumer_eq.
    destruct (Cons.token (consumer_at mem q) =? NULL);
      [intros H; injection H as <-; auto|].
    destruct (negb (module_live s)); [intros H; injection H as <-; auto|].
    destruct (find (fun tmp => tmp =? q) (consumers s));
      [|intros H; injection H as <-; auto].
    destruct (find _ (producers s)) as [p|] eqn:F;
      [|intros H; injection H as <-; auto].
    apply find_some in F. destruct F as [Hin Ht]. apply Z.eqb_eq in Ht.
    destruct (Cons.del_producer (consumer_at mem q)); [|discriminate].
    intros H; injection H as <-. rewrite new_events_after.
    destruct (disconnected_connects mem p q) as [Hp Hd].
    right. exists p, q. split; [split; auto|right; auto].
Qed.

End Wiring.

(** X19: one call of an entry point enters [__connect] and [__disconnect]
    at most once in all; a register call never enters [__disconnect] and an
    unregister call never enters [__connect]. *)
Theorem one_protocol_per_call (mem : memory) (a : api_call) (s s' : state) :
  api mem a s = Some (tt, s') ->
  (length (connects (new_events s s'))
   + length (disconnects (new_events s s')) <= 1)%nat /\
  (if is_register a then disconnects (new_events s s') = []
   else connects (new_events s s') = []).
Proof.
  intros H. apply api_protocol in H.
  destruct H as [(-> & ->)|(p & c & _ & [(-> & -> & ->)|(-> & -> & ->)])];
    simpl; split; auto; now destruct (is_register a).
Qed.

Lemma one_protocol_per_call_witness :
  exists s',
    api board (unregister_consumer 11) paired = Some (tt, s') /\
    connects (new_events paired s') = [] /\
    disconnects (new_events paired s') = [(1, 11)].
Proof.
  eassert (E : api board (unregister_consumer 11) paired = Some (tt, _))
    by (vm_compute; reflexivity).
  eexists. split; [exact E|].
  destruct (one_protocol_per_call board (unregister_consumer 11) paired _ E)
    as [_ H].
  split; [exact H|vm_compute; reflexivity].
Defined.

(** X20: whenever a call of an entry point enters [__connect] or
    [__disconnect], the producer and the consumer of the pair have the same
    token; one of the two is the argument of the call and the other is on the
    list of the other kind. *)
Theorem wired_pairs_share_token (mem : memory) (a : api_call) (s s' : state)
    (p c : ptr) :
  api mem a s = Some (tt, s') ->
  In (p, c) (connects (new_events s s') ++ disconnects (new_events s s')) ->
  works_on mem a s p c.
Proof.
  intros H. apply api_protocol in H.
  destruct H as [(-> & ->)|(p0 & c0 & Hw & [(_ & -> & ->)|(_ & -> & ->)])];
    simpl; intros Hin.
  - contradiction.
  - destruct Hin as [Hin|[]]. now injection Hin as <- <-.
  - destruct Hin as [Hin|[]]. now injection Hin as <- <-.
Qed.

Lemma wired_pairs_share_token_witness :
  exists s',
    api board (register_consumer 11) (after (init true) [1] [] 1 [])
    = Some (tt, s') /\
    works_on board (register_consumer 11) (after (init true) [1] [] 1 []) 1 11.
Proof.
  eassert (E : api board (register_consumer 11)
                 (after (init true) [1] [] 1 []) = Some (tt, _))
    by (vm_compute; reflexivity).
  eexists. split; [exact E|].
  apply (wired_pairs_share_token board (register_consumer 11)
           (after (init true) [1] [] 1 []) _ 1 11 E).
  vm_compute. now left.
Defined.

(** ** Along a run *)

Lemma refs_balanced_init (live : bool) : refs_balanced (init live).
Proof. reflexivity. Qed.

Lemma run_balanced (mem : memory) (calls : list api_call) (s : state) :
  registry_ok mem s -> refs_balanced s -> run_aimed mem calls s ->
  exists s', run mem calls s = Some (tt, s') /\ refs_balanced s'.
Proof.
  revert s. induction calls as [|a calls IH]; simpl; intros s Hok Hb Ha.
  - exists s. split; [reflexivity|assumption].
  - destruct Ha as [Ha Hrest].
    destruct (api_total mem a s Hok) as (s1 & E).
    unfold bind. rewrite E. apply IH.
    + now apply (api_ok mem a s).
    + apply (api_balanced mem a s s1 Hok Hb); [|exact E].
      intros p ->. exact Ha.
    + now apply Hrest.
Qed.

(** X21: along a sequence of calls from the empty registry in which
    [irq_bypass_unregister_producer] is only given producers that are on the
    list, or whose token no producer on the list has, the module references
    the manager holds are as many as the objects on its two lists: one per
    registration that returned 0, given back when the object is taken off
    the list. *)
Theorem aimed_runs_are_balanced (mem : memory) (live : bool)
    (calls : list api_call) :
  run_aimed mem calls (init live) ->
  exists s,
    run mem calls (init live) = Some (tt, s) /\
    module_refcnt s = Z.of_nat (length (producers s) + length (consumers s)).
Proof.
  intros Ha.
  apply (run_balanced mem calls (init live)); auto.
  - apply registry_ok_init.
  - apply refs_balanced_init.
Qed.

(** Producer 1 and consumer 11 come, producer 2 is turned away, producer 1
    goes. *)
Lemma aimed_runs_are_balanced_witness :
  exists s,
    run board [register_producer 1; register_consumer 11;
               register_producer 2; unregister_producer 1] (init true)
    = Some (tt, s) /\
    producers s = [] /\ consumers s = [11] /\ module_refcnt s = 1.
Proof.
  destruct (aimed_runs_are_balanced board true
              [register_producer 1; register_consumer 11;
               register_producer 2; unregister_producer 1])
    as (s & E & Hb).
  - simpl. split; [exact I|]. intros s1 E1.
    vm_compute in E1. injection E1 as <-.
    split; [exact I|]. intros s2 E2.
    vm_compute in E2. injection E2 as <-.
    split; [exact I|]. intros s3 E3.
    vm_compute in E3. injection E3 as <-.
    split; [left; simpl; now left|]. intros s4 E4. exact I.
  - pose proof E as E'. vm_compute in E'. injection E' as <-.
    eexists. split; [exact E|]. repeat split; reflexivity.
Defined.

(** X22: in every registry the entry points lead to, each producer on the
    list has a token that is not NULL, and each consumer on the list has a
    token that is not NULL, an [add_producer] and a [del_producer]; so the
    calls through [add_producer] and [del_producer], which [__connect] and
    [__disconnect] make without a test, do not go through a NULL pointer:
    every call of an entry point returns, as long as
    [irq_bypass_unregister_producer] is given a producer that is on the list,
    or whose token no producer on the list has. *)
Theorem registered_objects_admissible (mem : memory) (s : state) :
  reachable mem s ->
  Forall (fun p => prod_token mem p <> NULL) (producers s) /\
  Forall (cons_valid mem) (consumers s) /\
  forall a, aimed mem a s -> exists s', api mem a s = Some (tt, s').
Proof.
  intros Hr. apply reachable_ok in Hr.
  split; [apply (ok_prod_set _ _ Hr)|].
  split; [apply (ok_cons_valid _ _ Hr)|].
  intros a _. now apply api_total.
Qed.

(** Consumer 14, without [del_producer], and the blank producer 4 were
    turned away; producer 1 can be unregistered. *)
Lemma registered_objects_admissible_witness :
  run board [register_producer 4; register_producer 1; register_consumer 14;
             register_consumer 11] (init true) = Some (tt, paired) /\
  Forall (cons_valid board) (consumers paired) /\
  exists s', api board (unregister_producer 1) paired = Some (tt, s').
Proof.
  assert (H : run board [register_producer 4; register_producer 1;
                         register_consumer 14; register_consumer 11]
                (init true) = Some (tt, paired))
    by (vm_compute; reflexivity).
  split; [exact H|].
  destruct (registered_objects_admissible board paired) as (_ & Hc & Hret).
  - exists true. eexists. exact H.
  - split; [exact Hc|].
    apply (Hret (unregister_producer 1)). left. simpl. now left.
Defined.

(** ** Wired pairs *)

Lemma pair_eqb_eq (x y : ptr * ptr) : pair_eqb x y = true <-> x = y.
Proof.
  destruct x as [a b], y as [a' b']. unfold pair_eqb. simpl.
  rewrite andb_true_iff, !Z.eqb_eq. split.
  - intros [-> ->]. reflexivity.
  - intros H. injection H as -> ->. auto.
Qed.

Lemma existsb_pair (x : ptr * ptr) (w : list (ptr * ptr)) :
  existsb (pair_eqb x) w = true <-> In x w.
Proof.
  rewrite existsb_exists. split.
  - intros (y & Hin & E). apply pair_eqb_eq in E. now subst.
  - intros Hin. exists x. split; [assumption|]. now apply pair_eqb_eq.
Qed.

Lemma filter_pair (x y : ptr * ptr) (w : list (ptr * ptr)) :
  In y (filter (fun z => negb (pair_eqb x z)) w) <-> In y w /\ y <> x.
Proof.
  rewrite filter_In. split; intros [Hin H]; split; auto.
  - intros ->. rewrite (proj2 (pair_eqb_eq x x) eq_refl) in H. discriminate.
  - destruct (pair_eqb x y) eqn:E; [|reflexivity].
    apply pair_eqb_eq in E. now elim H.
Qed.

Lemma wiring_app (a b : trace) (w : list (ptr * ptr)) :
  wiring (a ++ b) w
  = match wiring a w with Some w' => wiring b w' | None => None end.
Proof.
  revert w. induction a as [|e a IH]; intros w; simpl; [reflexivity|].
  destruct e as [? ?|? ?|?|?|? ? ?|c p r|? ?|c p|?|?]; try apply IH.
  - destruct (r =? 0); [|apply IH].
    destruct (existsb _ w); [reflexivity|apply IH].
  - destruct (existsb _ w); [apply IH|reflexivity].
Qed.

Lemma wiring_neutral (a : trace) (w : list (ptr * ptr)) :
  forallb neutral a = true -> wiring a w = Some w.
Proof.
  induction a as [|e a IH]; simpl; [reflexivity|].
  intros H. apply andb_true_iff in H. destruct H as [He Ha].
  destruct e; try discriminate; now apply IH.
Qed.

Section Wired.

Variable mem : memory.

Lemma neutral_stops (p c : ptr) : forallb neutral (stops mem p c) = true.
Proof.
  unfold stops.
  destruct (Prod.stop (producer_at mem p)), (Cons.stop (consumer_at mem c));
    reflexivity.
Qed.

Lemma neutral_tail (p c : ptr) (r : Z) :
  forallb neutral (rollback mem p c r ++ starts mem p c) = true.
Proof.
  unfold rollback, starts.
  destruct (negb (r =? 0) && Prod.del_consumer (producer_at mem p)),
    (Cons.start (consumer_at mem c)), (Prod.start (producer_at mem p));
    reflexivity.
Qed.

(** What a connect does to the wired pairs. *)
Lemma wiring_connect_log (p c : ptr) (l : trace) (r : Z) (evs : trace)
    (w : list (ptr * ptr)) :
  connect_log mem p c l = Some (r, evs) ->
  wiring evs w
  = if r =? 0
    then if existsb (pair_eqb (p, c)) w then None else Some ((p, c) :: w)
    else Some w.
Proof.
  intros E. apply connect_log_shape in E. cbv zeta in E.
  destruct E as [(Hr & -> & _)|(mid & -> & Hmid & _)].
  - destruct (Z.eqb_spec r 0); [contradiction|].
    apply wiring_neutral. simpl. rewrite forallb_app, neutral_stops.
    reflexivity.
  - change (call_connect p c :: stops mem p c
            ++ mid ++ cons_add_producer c p r
                      :: rollback mem p c r ++ starts mem p c)
      with ((call_connect p c :: stops mem p c)
            ++ mid ++ [cons_add_producer c p r]
            ++ rollback mem p c r ++ starts mem p c).
    rewrite wiring_app, wiring_neutral
      by (simpl; apply neutral_stops).
    rewrite wiring_app, wiring_neutral
      by (destruct Hmid as [-> | ->]; reflexivity).
    simpl. destruct (r =? 0).
    + destruct (existsb _ w); [reflexivity|].
      apply wiring_neutral, neutral_tail.
    + apply wiring_neutral, neutral_tail.
Qed.

(** What a disconnect does to the wired pairs. *)
Lemma wiring_disconnected (p c : ptr) (w : list (ptr * ptr)) :
  wiring (disconnected mem p c) w
  = if existsb (pair_eqb (p, c)) w
    then Some (filter (fun x => negb (pair_eqb (p, c) x)) w)
    else None.
Proof.
  unfold disconnected.
  change (call_disconnect p c :: stops mem p c
          ++ cons_del_producer c p
             :: (if Prod.del_consumer (producer_at mem p)
                 then [prod_del_consumer p c] else [])
             ++ starts mem p c)
    with ((call_disconnect p c :: stops mem p c)
          ++ [cons_del_producer c p]
          ++ (if Prod.del_consumer (producer_at mem p)
              then [prod_del_consumer p c] else [])
          ++ starts mem p c).
  rewrite wiring_app, wiring_neutral by (simpl; apply neutral_stops).
  simpl. destruct (existsb _ w); [|reflexivity].
  apply wiring_neutral. unfold starts.
  destruct (Prod.del_consumer (producer_at mem p)),
    (Cons.start (consumer_at mem c)), (Prod.start (producer_at mem p));
    reflexivity.
Qed.

Lemma wired_same_lists (s s' : state) (w : list (ptr * ptr)) :
  producers s' = producers s -> consumers s' = consumers s ->
  wired_as_registered mem s w -> wired_as_registered mem s' w.
Proof.
  unfold wired_as_registered. intros -> ->. auto.
Qed.

End Wired.

Section WiredStep.

Variable mem : memory.

Lemma wiring_register_producer (p : ptr) (s : state) (r : Z) (s' : state)
    (w : list (ptr * ptr)) :
  registry_ok mem s ->
  wiring (log s) [] = Some w ->
  wired_as_registered mem s w ->
  irq_bypass_register_producer mem p s = Some (r, s') ->
  exists w', wiring (log s') [] = Some w' /\ wired_as_registered mem s' w'.
Proof.
  intros Hok Hlog Hw. rewrite register_producer_eq.
  destruct (Prod.token (producer_at mem p) =? NULL);
    [intros H; injection H as <- <-; eauto|].
  destruct (negb (module_live s)); [intros H; injection H as <- <-; eauto|].
  destruct (existsb _ (producers s)) eqn:D;
    [intros H; injection H as <- <-; eauto|].
  assert (Hp : ~ In p (producers s)).
  { intros Hin. apply (existsb_false _ _ D) in Hin.
    rewrite Z.eqb_refl in Hin. discriminate. }
  destruct (find _ (consumers s)) as [c|] eqn:F.
  - pose proof (find_some _ _ F) as [Hc Htok]. apply Z.eqb_eq in Htok.
    destruct (connect_log mem p c (log s)) as [[r0 evs]|] eqn:E; [|discriminate].
    pose proof (wiring_connect_log mem p c _ _ _ w E) as Hevs.
    destruct (Z.eqb_spec r0 0) as [->|Hr]; cbn [negb];
      intros H; injection H as <- <-; simpl; rewrite wiring_app, Hlog, Hevs.
    + replace (existsb (pair_eqb (p, c)) w) with false.
      2:{ symmetry. apply not_true_is_false. intros Hin.
          apply existsb_pair, Hw in Hin. now destruct Hin. }
      eexists. split; [reflexivity|].
      intros p' c'. simpl. split.
      * intros [Heq|Hin].
        -- injection Heq as <- <-. unfold prod_token, cons_token. auto.
        -- apply Hw in Hin. tauto.
      * intros ([<-|Hin] & Hc' & Ht).
        -- left. f_equal.
           apply (NoDup_map_eq _ _ _ _ (ok_cons_tokens _ _ Hok) Hc Hc').
           unfold prod_token, cons_token in *. congruence.
        -- right. apply Hw. auto.
    + eexists. split; [reflexivity|]. now apply (wired_same_lists mem s).
  - intros H; injection H as <- <-. simpl.
    rewrite wiring_app, Hlog. simpl.
    eexists. split; [reflexivity|].
    intros p' c'. simpl. split.
    + intros Hin. apply Hw in Hin. tauto.
    + intros ([<-|Hin] & Hc' & Ht).
      * apply (find_none _ _ F) in Hc'. apply Z.eqb_neq in Hc'.
        unfold prod_token, cons_token in Ht. now elim Hc'.
      * apply Hw. auto.
Qed.

Lemma wiring_register_consumer (c : ptr) (s : state) (r : Z) (s' : state)
    (w : list (ptr * ptr)) :
  registry_ok mem s ->
  wiring (log s) [] = Some w ->
  wired_as_registered mem s w ->
  irq_bypass_register_consumer mem c s = Some (r, s') ->
  exists w', wiring (log s') [] = Some w' /\ wired_as_registered mem s' w'.
Proof.
  intros Hok Hlog Hw. rewrite register_consumer_eq.
  destruct (_ || _ || _); [intros H; injection H as <- <-; eauto|].
  destruct (negb (module_live s)); [intros H; injection H as <- <-; eauto|].
  destruct (existsb _ (consumers s)) eqn:D;
    [intros H; injection H as <- <-; eauto|].
  assert (Hc : ~ In c (consumers s)).
  { intros Hin. apply (existsb_false _ _ D) in Hin.
    apply orb_false_iff in Hin. destruct Hin as [_ Hin].
    rewrite Z.eqb_refl in Hin. discriminate. }
  destruct (find _ (producers s)) as [p|] eqn:F.
  - pose proof (find_some _ _ F) as [Hp Htok]. apply Z.eqb_eq in Htok.
    destruct (connect_log mem p c (log s)) as [[r0 evs]|] eqn:E; [|discriminate].
    pose proof (wiring_connect_log mem p c _ _ _ w E) as Hevs.
    destruct (Z.eqb_spec r0 0) as [->|Hr]; cbn [negb];
      intros H; injection H as <- <-; simpl; rewrite wiring_app, Hlog, Hevs.
    + replace (existsb (pair_eqb (p, c)) w) with false.
      2:{ symmetry. apply not_true_is_false. intros Hin.
          apply existsb_pair, Hw in Hin. now destruct Hin as (_ & Hin & _). }
      eexists. split; [reflexivity|].
      intros p' c'. simpl. split.
      * intros [Heq|Hin].
        -- injection Heq as <- <-. unfold prod_token, cons_token. auto.
        -- apply Hw in Hin. tauto.
      * intros (Hp' & [<-|Hin] & Ht).
        -- left. f_equal.
           apply (NoDup_map_eq _ _ _ _ (ok_prod_tokens _ _ Hok) Hp Hp').
           unfold prod_token, cons_token in *. congruence.
        -- right. apply Hw. auto.
    + eexists. split; [reflexivity|]. now apply (wired_same_lists mem s).
  - intros H; injection H as <- <-. simpl.
    rewrite wiring_app, Hlog. simpl.
    eexists. split; [reflexivity|].
    intros p' c'. simpl. split.
    + intros Hin. apply Hw in Hin. tauto.
    + intros (Hp' & [<-|Hin] & Ht).
      * apply (find_none _ _ F) in Hp'. apply Z.eqb_neq in Hp'.
        unfold prod_token, cons_token in Ht. now elim Hp'.
      * apply Hw. auto.
Qed.

Lemma wiring_unregister_producer (p : ptr) (s s' : state)
    (w : list (ptr * ptr)) :
  registry_ok mem s ->
  aimed mem (unregister_producer p) s ->
  wiring (log s) [] = Some w ->
  wired_as_registered mem s w ->
  irq_bypass_unregister_producer mem p s = Some (tt, s') ->
  exists w', wiring (log s') [] = Some w' /\ wired_as_registered mem s' w'.
Proof.
  intros Hok [Hin|Hno] Hlog Hw.
  2:{ rewrite (unregister_producer_unmatched mem p s Hno).
      intros H; injection H as <-. eauto. }
  destruct (unregister_producer_linked mem s p Hok Hin) as (evs & -> & Hm & Hn).
  intros H; injection H as <-. simpl. rewrite wiring_app, Hlog.
  destruct (find (fun c => cons_token mem c =? prod_token mem p) (consumers s))
    as [c|] eqn:F.
  - apply find_some in F. destruct F as [Hc Ht]. apply Z.eqb_eq in Ht.
    rewrite (Hm c Hc Ht), wiring_disconnected.
    replace (existsb (pair_eqb (p, c)) w) with true
      by (symmetry; apply existsb_pair, Hw; auto).
    eexists. split; [reflexivity|].
    intros p' c'. simpl. split.
    + intros Hin'. apply filter_pair in Hin'. destruct Hin' as [Hin' Hne].
      apply Hw in Hin'. destruct Hin' as (Hp' & Hc' & Ht').
      split; [apply list_del_In; split; [assumption|]|auto].
      intros ->. apply Hne. f_equal.
      apply (NoDup_map_eq _ _ _ _ (ok_cons_tokens _ _ Hok) Hc' Hc). congruence.
    + intros (Hp' & Hc' & Ht'). apply list_del_In in Hp'.
      destruct Hp' as [Hp' Hne]. apply filter_pair.
      split; [apply Hw; auto|].
      intros Heq. injection Heq as -> _. now elim Hne.
  - assert (Hnone : forall c, In c (consumers s) ->
                              cons_token mem c <> prod_token mem p).
    { intros c Hc. apply (find_none _ _ F) in Hc. now apply Z.eqb_neq. }
    rewrite (Hn Hnone). simpl.
    eexists. split; [reflexivity|].
    intros p' c'. simpl. split.
    + intros Hin'. apply Hw in Hin'. destruct Hin' as (Hp' & Hc' & Ht').
      split; [apply list_del_In; split; [assumption|]|auto].
      intros ->. now elim (Hnone c' Hc').
    + intros (Hp' & Hc' & Ht'). apply list_del_In in Hp'. apply Hw. tauto.
Qed.

Lemma wiring_unregister_consumer (c : ptr) (s s' : state)
    (w : list (ptr * ptr)) :
  registry_ok mem s ->
  wiring (log s) [] = Some w ->
  wired_as_registered mem s w ->
  irq_bypass_unregister_consumer mem c s = Some (tt, s') ->
  exists w', wiring (log s') [] = Some w' /\ wired_as_registered mem s' w'.
Proof.
  intros Hok Hlog Hw.
  destruct (in_dec Z.eq_dec c (consumers s)) as [Hin|Hno].
  2:{ rewrite (unregister_consumer_unlinked mem c s Hno).
      intros H; injection H as <-. eauto. }
  destruct (unregister_consumer_linked mem s c Hok Hin) as (evs & -> & Hm & Hn).
  intros H; injection H as <-. simpl. rewrite wiring_app, Hlog.
  destruct (find (fun p => prod_token mem p =? cons_token mem c) (producers s))
    as [p|] eqn:F.
  - apply find_some in F. destruct F as [Hp Ht]. apply Z.eqb_eq in Ht.
    rewrite (Hm p Hp Ht), wiring_disconnected.
    replace (existsb (pair_eqb (p, c)) w) with true
      by (symmetry; apply existsb_pair, Hw; auto).
    eexists. split; [reflexivity|].
    intros p' c'. simpl. split.
    + intros Hin'. apply filter_pair in Hin'. destruct Hin' as [Hin' Hne].
      apply Hw in Hin'. destruct Hin' as (Hp' & Hc' & Ht').
      split; [assumption|]. split; [apply list_del_In; split; [assumption|]|auto].
      intros ->. apply Hne. f_equal.
      apply (NoDup_map_eq _ _ _ _ (ok_prod_tokens _ _ Hok) Hp' Hp). congruence.
    + intros (Hp' & Hc' & Ht'). apply list_del_In in Hc'.
      destruct Hc' as [Hc' Hne]. apply filter_pair.
      split; [apply Hw; auto|].
      intros Heq. injection Heq as _ ->. now elim Hne.
  - assert (Hnone : forall p, In p (producers s) ->
                              prod_token mem p <> cons_token mem c).
    { intros p Hp. apply (find_none _ _ F) in Hp. now apply Z.eqb_neq. }
    rewrite (Hn Hnone). simpl.
    eexists. split; [reflexivity|].
    intros p' c'. simpl. split.
    + intros Hin'. apply Hw in Hin'. destruct Hin' as (Hp' & Hc' & Ht').
      split; [assumption|]. split; [apply list_del_In; split; [assumption|]|auto].
      intros ->. now elim (Hnone p' Hp').
    + intros (Hp' & Hc' & Ht'). apply list_del_In in Hc'. apply Hw. tauto.
Qed.

Lemma api_wiring (a : api_call) (s s' : state) (w : list (ptr * ptr)) :
  registry_ok mem s ->
  aimed mem a s ->
  wiring (log s) [] = Some w ->
  wired_as_registered mem s w ->
  api mem a s = Some (tt, s') ->
  exists w', wiring (log s') [] = Some w' /\ wired_as_registered mem s' w'.
Proof.
  intros Hok Ha Hlog Hw. destruct a as [p|p|c|c]; unfold api, bind, ret.
  - destruct (irq_bypass_register_producer mem p s) as [[r s1]|] eqn:E;
      [|discriminate].
    intros H; injection H as <-.
    now apply (wiring_register_producer p s r s1 w).
  - now apply (wiring_unregister_producer p s s' w).
  - destruct (irq_bypass_register_consumer mem c s) as [[r s1]|] eqn:E;
      [|discriminate].
    intros H; injection H as <-.
    now apply (wiring_register_consumer c s r s1 w).
  - now apply (wiring_unregister_consumer c s s' w).
Qed.

Lemma run_wiring (calls : list api_call) (s : state) (w : list (ptr * ptr)) :
  registry_ok mem s ->
  run_aimed mem calls s ->
  wiring (log s) [] = Some w ->
  wired_as_registered mem s w ->
  exists s' w',
    run mem calls s = Some (tt, s') /\
    wiring (log s') [] = Some w' /\ wired_as_registered mem s' w'.
Proof.
  revert s w. induction calls as [|a calls IH]; simpl; intros s w Hok Ha Hl Hw.
  - exists s, w. auto.
  - destruct Ha as [Ha Hrest].
    destruct (api_total mem a s Hok) as (s1 & E).
    destruct (api_wiring a s s1 w Hok Ha Hl Hw E) as (w1 & Hl1 & Hw1).
    unfold bind. rewrite E.
    apply (IH s1 w1); auto. now apply (api_ok mem a s).
Qed.

End WiredStep.

(** X23: along a sequence of calls from the empty registry in which
    [irq_bypass_unregister_producer] is only given producers that are on the
    list, or whose token no producer on the list has, the consumers are told
    exactly what the lists say: no consumer gets an [add_producer] that
    succeeds for a producer it is wired to already, none gets a
    [del_producer] for a producer it is not wired to, and at the end a
    producer and a consumer are wired exactly when both are on their lists
    and have the same token. *)
Theorem wired_exactly_the_registered_pairs (mem : memory) (live : bool)
    (calls : list api_call) :
  run_aimed mem calls (init live) ->
  exists s w,
    run mem calls (init live) = Some (tt, s) /\
    wiring (log s) [] = Some w /\
    forall p c,
      In (p, c) w <->
      In p (producers s) /\ In c (consumers s) /\
      prod_token mem p = cons_token mem c.
Proof.
  intros Ha.
  apply (run_wiring mem calls (init live) []); auto.
  - apply registry_ok_init.
  - intros p c. simpl. tauto.
Qed.

(** Producer 1 and consumer 11 come, consumer 12 is turned away, producer 3
    comes alone. *)
Lemma wired_exactly_the_registered_pairs_witness :
  exists s,
    run board [register_producer 1; register_consumer 11;
               register_consumer 12; register_producer 3] (init true)
    = Some (tt, s) /\
    producers s = [3; 1] /\ consumers s = [11] /\
    wiring (log s) [] = Some [(1, 11)].
Proof.
  destruct (wired_exactly_the_registered_pairs board true
              [register_producer 1; register_consumer 11;
               register_consumer 12; register_producer 3])
    as (s & w & E & Hl & _).
  - simpl. split; [exact I|]. intros s1 _.
    split; [exact I|]. intros s2 _.
    split; [exact I|]. intros s3 _.
    split; [exact I|]. intros s4 _. exact I.
  - pose proof E as E'. vm_compute in E'. injection E' as <-.
    eexists. split; [exact E|]. repeat split; reflexivity.
Defined.

(** The condition on [irq_bypass_unregister_producer] is needed: producer 2
    is not on the list and has the token of producer 1, and after the call
    consumer 11 has been told to drop a producer it was never wired to. *)
Lemma unaimed_unregister_breaks_wiring :
  ~ aimed board (unregister_producer 2) paired /\
  exists s',
    irq_bypass_unregister_producer board 2 paired = Some (tt, s') /\
    wiring (log paired) [] = Some [(1, 11)] /\
    wiring (log s') [] = None.
Proof.
  split.
  - simpl. intros [[H|[]]|H]; [discriminate|].
    apply (H 1); [now left|reflexivity].
  - eexists. split; [vm_compute; reflexivity|]. split; reflexivity.
Qed.

(** ** Objects without a token *)

(** X24: an object whose token is NULL is turned away before the module
    reference is taken, also in a live module and whatever is on the lists:
    [irq_bypass_register_producer] returns [-EINVAL], the two unregister
    functions return, and the state is as it was. *)
Theorem null_token_turned_away (mem : memory) (s : state) :
  (forall p, prod_token mem p = NULL ->
     irq_bypass_register_producer mem p s = Some (- EINVAL, s) /\
     irq_bypass_unregister_producer mem p s = Some (tt, s))
  /\
  (forall c, cons_token mem c = NULL ->
     irq_bypass_unregister_consumer mem c s = Some (tt, s)).
Proof.
  unfold prod_token, cons_token. split.
  - intros p Hp.
    rewrite register_producer_eq, unregister_producer_eq, Hp. split; reflexivity.
  - intros c Hc. rewrite unregister_consumer_eq, Hc. reflexivity.
Qed.

(** The blank producer 4 and the blank consumer 16. *)
Lemma null_token_turned_away_witness :
  irq_bypass_register_producer board 4 paired = Some (- EINVAL, paired) /\
  irq_bypass_unregister_consumer board 16 paired = Some (tt, paired).
Proof.
  destruct (null_token_turned_away board paired) as [Hp Hc].
  split.
  - apply (Hp 4). reflexivity.
  - apply (Hc 16). reflexivity.
Defined.
